(** * InfiniteTalk Runpod worker: the job orchestration and reliability layer

    A shallow embedding of the worker's request validation and
    normalisation ([worker/validator.py]), its transfer layer
    ([worker/storage.py]), the generation wrapper with its out-of-memory
    retry ([worker/pipeline.py]), the job handler ([worker/handler.py])
    and the polling cadence of the UI client ([ui/app.py]).

    Modelling conventions.
    - JSON documents and Python dictionaries are [json] values; a [dict]
      is a finite map from strings, compared extensionally like Python's
      [==] on dictionaries.
    - Python exceptions are values of [exn], each with its class and
      the classes that class derives from; a function that may raise
      returns a [result].  Only exceptions that are instances of
      [Exception] are modelled: [KeyboardInterrupt], [SystemExit] and
      the like pass every handler of the code and end the worker.
    - Everything outside the repository (file system, HTTP, the upstream
      generator, the clock, pydantic's scalar coercions, [int] and [str]
      on text and floats) is an oracle: a field of [World], [Client] or
      [Scalars].  An oracle sees the effects performed so far, so its
      answers may change from call to call.
    - [os.makedirs] is recorded in the effect trace and answered by the
      file system; stdout logging and progress updates are recorded in
      the trace and do not fail.
    - Python floats that only carry durations are rationals. *)

From Stdlib Require Import ZArith QArith Qminmax Lqa String Ascii List Lia DecimalString.
From stdpp Require Import base gmap strings list.

Set Warnings "-register-all".

Open Scope string_scope.
Open Scope Z_scope.

(** ** Python values *)

Inductive json : Type :=
| JNull
| JBool (b : bool)
| JInt (z : Z)
| JFloat (q : Q)
| JStr (s : string)
| JList (l : list json)
| JObj (m : gmap string json).

Abbreviation dict := (gmap string json).

(** Python truthiness, as used by [x or y], [if x] and [not x]. *)
Definition truthy (v : json) : bool :=
  match v with
  | JNull => false
  | JBool b => b
  | JInt z => negb (Z.eqb z 0)
  | JFloat q => negb (Qeq_bool q 0)
  | JStr s => negb (String.eqb s "")
  | JList l => negb (Nat.eqb (length l) 0)
  | JObj m => negb (Nat.eqb (size m) 0)
  end.

(** [d.get(k)] with Python's [None] for a missing key. *)
Definition py_get (d : dict) (k : string) : json :=
  default JNull (d !! k).

(** [k in d]. *)
Definition has_key (d : dict) (k : string) : bool :=
  bool_decide (is_Some (d !! k)).

(** ** Strings: [str.lower] on ASCII text and the [in] substring test *)

Definition lower_ascii (c : ascii) : ascii :=
  let n := nat_of_ascii c in
  if (Nat.leb 65 n && Nat.leb n 90)%bool then ascii_of_nat (n + 32) else c.

Fixpoint lower (s : string) : string :=
  match s with
  | EmptyString => EmptyString
  | String c r => String (lower_ascii c) (lower r)
  end.

Fixpoint contains (needle hay : string) : bool :=
  (String.prefix needle hay ||
   match hay with
   | EmptyString => false
   | String _ r => contains needle r
   end)%bool.

(** ** Exceptions *)

(** An exception class: its [__name__] and its method resolution
    order, the class itself first and then every class it derives from,
    by qualified name.  Any class may occur, with any ancestry. *)
Record exc_class : Type := mk_class {
  class_name : string;         (* type(e).__name__ *)
  class_mro : list string      (* type(e).__mro__ *)
}.

Record exn : Type := mk_exn { exn_class : exc_class; exn_msg : string }.

(** [isinstance(e, cls)], which is also the test of [except cls]. *)
Definition isinstance (c : exc_class) (cls : string) : bool :=
  bool_decide (cls ∈ class_mro c).

(** A class of the standard library, from its bases up to [Exception]. *)
Definition builtin (name : string) (bases : list string) : exc_class :=
  mk_class name (name :: bases ++ ["Exception"; "BaseException"; "object"]).

Definition ValueError : exc_class := builtin "ValueError" [].
Definition TypeError : exc_class := builtin "TypeError" [].
Definition KeyError : exc_class := builtin "KeyError" ["LookupError"].
Definition AttributeError : exc_class := builtin "AttributeError" [].
Definition RuntimeError : exc_class := builtin "RuntimeError" [].
Definition NotImplementedError : exc_class := builtin "NotImplementedError" ["RuntimeError"].
Definition MemoryError : exc_class := builtin "MemoryError" [].
Definition OSError : exc_class := builtin "OSError" [].

(** [pydantic_core.ValidationError], a [ValueError]. *)
Definition ValidationError : exc_class :=
  mk_class "ValidationError"
    ["pydantic_core.ValidationError"; "ValueError"; "Exception"; "BaseException"; "object"].

(** [torch.cuda.OutOfMemoryError], a [RuntimeError]. *)
Definition OutOfMemoryError : exc_class :=
  mk_class "OutOfMemoryError"
    ["torch.OutOfMemoryError"; "RuntimeError"; "Exception"; "BaseException"; "object"].

(** [requests.HTTPError] *)
Definition HTTPError : exc_class :=
  mk_class "HTTPError"
    ["requests.HTTPError"; "requests.RequestException"; "OSError"; "Exception";
     "BaseException"; "object"].

(** [isinstance(e, RuntimeError)] *)
Definition is_RuntimeError (c : exc_class) : bool := isinstance c "RuntimeError".

(** [isinstance(e, MemoryError)] *)
Definition is_MemoryError (c : exc_class) : bool := isinstance c "MemoryError".

(** [isinstance(e, torch.cuda.OutOfMemoryError)] *)
Definition is_OutOfMemoryError (c : exc_class) : bool := isinstance c "torch.OutOfMemoryError".

Inductive result (A : Type) : Type :=
| Ok (a : A)
| Raise (e : exn).
Arguments Ok {A} a.
Arguments Raise {A} e.

#[global] Instance result_ret : MRet result := fun A a => Ok a.
#[global] Instance result_bind : MBind result :=
  fun A B f m => match m with Ok a => f a | Raise e => Raise e end.

Definition is_ok {A} (r : result A) : bool :=
  match r with Ok _ => true | Raise _ => false end.

(** ** Effects and the environment *)

(** Arguments of the one call into the upstream generator
    ([wan_i2v.generate_infinitetalk]). *)
Record gen_args : Type := mk_gen_args {
  ga_input_data : gmap string json;
  ga_size_buckget : json;
  ga_motion_frame : json;
  ga_frame_num : json;
  ga_shift : Z;
  ga_sampling_steps : json;
  ga_text_guide_scale : json;
  ga_audio_guide_scale : json;
  ga_seed : json;
  ga_offload_model : json;
  ga_max_frames_num : json;
  ga_color_correction_strength : json
}.

Inductive effect : Type :=
| EvLog (level event : string)
| EvProgress (stage : string) (pct : Z) (item_id : option string) (item_index : option nat)
| EvSeedEverything (seed : Z)            (* the call _seed_everything(seed) *)
| EvRandomSeed (seed : Z)                (* random.seed(seed) alone, in its handler *)
| EvKeepWarm
| EvMakedirs (path : string)
| EvHttpGet (url : string) (attempt : Z)
| EvSleep (seconds : Q)
| EvWriteFile (path : string)
| EvCustomInit
| EvAudioPrepare (speakers : nat)
| EvBuildPipeline (params : dict)
| EvGenerate (args : gen_args)
| EvSaveVideo (path_noext : string)
| EvUpload (path : string) (url : json)
| EvReadFile (path : string)
| EvStatusQuery (job_id : string)
| EvUiProgress (percent : Z) (stage : string).

Abbreviation trace := (list effect).

(** What one [requests.get] attempt delivers: the exception it raised, or
    the response's Content-Type, byte count and SHA-256 hex digest. *)
Inductive http_outcome : Type :=
| HttpRaise (e : exn)
| HttpBody (mime : option string) (total : Z) (digest : string).

(** The process environment read by [_resolve_model_paths]. *)
Record Env : Type := mk_env {
  CKPT_DIR : option string;
  INFINITETALK_DIR : option string;
  WAV2VEC_DIR : option string;
  QUANT_DIR : option string;
  DIT_PATH : option string
}.

Record World : Type := mk_world {
  w_env : Env;
  w_defaults : dict;                                  (* config/defaults.yaml *)
  w_uuid : string;
  w_iso_now : trace -> string;
  w_int_of_str : string -> result Z;                  (* int(s) on text *)
  w_str : json -> string;                             (* str(v) of a float or a container *)
  w_makedirs : trace -> string -> result unit;        (* os.makedirs(p, exist_ok=True) *)
  w_seed_all : trace -> Z -> result unit;             (* import and seed random, numpy, torch *)
  w_path_exists : trace -> string -> bool;
  w_getsize : trace -> string -> result Z;
  w_b64_valid : string -> bool;                       (* base64.b64decode(s, validate=True) succeeds *)
  w_b64_decode : string -> result Z;                  (* len(base64.b64decode(s)) *)
  w_url_scheme : string -> string;                    (* urlparse(s).scheme *)
  w_url_basename : string -> string;                  (* os.path.basename(urlparse(s).path) *)
  w_has_ext : string -> bool;                         (* os.path.splitext(s)[1] is not empty *)
  w_http_get : trace -> string -> http_outcome;
  w_custom_init : trace -> result unit;
  w_audio_prepare : trace -> list string -> result unit;  (* prepare, embed and save *)
  w_pipeline_ctor : trace -> dict -> result unit;     (* wan.InfiniteTalkPipeline(...) *)
  w_generate : trace -> gen_args -> result unit;      (* generate_infinitetalk *)
  w_save_video : trace -> string -> result unit;      (* save_video_ffmpeg *)
  w_upload : trace -> string -> json -> result Z;     (* HTTP PUT, the status code *)
  w_read_b64 : trace -> string -> result string;       (* the file's content, base64 *)
  w_format_exc : trace -> string;                     (* traceback.format_exc(limit=2) *)
  w_generation_ms : trace -> Z;
  w_total_ms : trace -> Z
}.

(** ** The state-and-exception monad of the worker

    The state survives a raised exception, as Python's mutable locals
    and performed side effects do. *)

Record CheckpointEvt : Type := mk_cp { cp_event : string; cp_ts : string }.

Record St : Type := mk_st {
  st_trace : trace;
  st_checkpoints : list CheckpointEvt;   (* the [checkpoints] list of the running item *)
  st_timings : gmap string Z             (* the [timings] dict of the running item *)
}.

Definition Py (A : Type) : Type := St -> result A * St.

#[global] Instance Py_ret : MRet Py := fun A a s => (Ok a, s).
#[global] Instance Py_bind : MBind Py :=
  fun A B f m s =>
    match m s with
    | (Ok a, s') => f a s'
    | (Raise e, s') => (Raise e, s')
    end.

Definition raise {A} (e : exn) : Py A := fun s => (Raise e, s).

Definition lift {A} (r : result A) : Py A := fun s => (r, s).

(** [try: m  except Exception as e: h e] *)
Definition try_except {A} (m : Py A) (h : exn -> Py A) : Py A :=
  fun s =>
    match m s with
    | (Ok a, s') => (Ok a, s')
    | (Raise e, s') => h e s'
    end.

Definition emit (e : effect) : Py unit :=
  fun s => (Ok tt, mk_st (st_trace s ++ [e]) (st_checkpoints s) (st_timings s)).

(** Ask an oracle, showing it the effects performed so far. *)
Definition ask {A} (f : trace -> A) : Py A :=
  fun s => (Ok (f (st_trace s)), s).

(** [os.makedirs(path, exist_ok=True)] *)
Definition makedirs (w : World) (path : string) : Py unit :=
  _ ← emit (EvMakedirs path);
  ask (fun tr => w_makedirs w tr path) ≫= lift.

Definition get_checkpoints : Py (list CheckpointEvt) :=
  fun s => (Ok (st_checkpoints s), s).

Definition get_timings : Py (gmap string Z) :=
  fun s => (Ok (st_timings s), s).

Definition push_checkpoint (c : CheckpointEvt) : Py unit :=
  fun s => (Ok tt, mk_st (st_trace s) (st_checkpoints s ++ [c]) (st_timings s)).

Definition set_timing (k : string) (v : Z) : Py unit :=
  fun s => (Ok tt, mk_st (st_trace s) (st_checkpoints s) (<[k := v]> (st_timings s))).

(** Fresh [checkpoints = []] and [timings = {}] at the start of an item. *)
Definition reset_locals : Py unit :=
  fun s => (Ok tt, mk_st (st_trace s) [] ∅).

Definition init_st : St := mk_st [] [] ∅.

(** ** worker/validator.py *)

Module Validator.

(** A [str] field takes a JSON string and nothing else. *)
Definition as_str (v : json) : option string :=
  match v with JStr s => Some s | _ => None end.

(** pydantic's coercion of a JSON value to a numeric or boolean field.
    The library is not part of the repository; the schema below is
    stated over any such coercions and [lax] is the instance used on
    concrete inputs. *)
Record Scalars : Type := mk_scalars {
  as_int : json -> option Z;
  as_float : json -> option Q;
  as_bool : json -> option bool
}.

Definition lax_int (v : json) : option Z :=
  match v with
  | JInt z => Some z
  | JBool b => Some (if b then 1 else 0)
  | JFloat q =>
      if Z.eqb (Z.rem (Qnum q) (Zpos (Qden q))) 0
      then Some (Z.quot (Qnum q) (Zpos (Qden q))) else None
  | JStr s => Z.of_int <$> NilZero.int_of_string s
  | _ => None
  end.

Definition lax_float (v : json) : option Q :=
  match v with
  | JFloat q => Some q
  | JInt z => Some (inject_Z z)
  | JBool b => Some (if b then 1%Q else 0%Q)
  | JStr s => (fun i => inject_Z (Z.of_int i)) <$> NilZero.int_of_string s
  | _ => None
  end.

Definition lax_bool (v : json) : option bool :=
  match v with
  | JBool b => Some b
  | JInt z => if Z.eqb z 0 then Some false else if Z.eqb z 1 then Some true else None
  | JFloat q =>
      if Qeq_bool q 0 then Some false else if Qeq_bool q 1 then Some true else None
  | JStr s =>
      let l := lower s in
      if bool_decide (l ∈ ["1"; "on"; "t"; "true"; "y"; "yes"]) then Some true
      else if bool_decide (l ∈ ["0"; "off"; "f"; "false"; "n"; "no"]) then Some false
      else None
  | _ => None
  end.

Definition lax : Scalars := mk_scalars lax_int lax_float lax_bool.

(** *** Field access *)

Definition invalid {A} (field reason : string) : result A :=
  Raise (mk_exn ValidationError (field +:+ ": " +:+ reason)).

Definition parsed {A} (k : string) (o : option A) : result A :=
  match o with
  | Some a => Ok a
  | None => invalid k "Input should be valid"
  end.

(** A field with a default: the default is taken as is when the key is
    absent. *)
Definition optional {A} (d : dict) (k : string) (parse : json -> option A) (dflt : A)
  : result A :=
  match d !! k with
  | None => Ok dflt
  | Some v => parsed k (parse v)
  end.

Definition required {A} (d : dict) (k : string) (parse : json -> option A) : result A :=
  match d !! k with
  | None => invalid k "Field required"
  | Some v => parsed k (parse v)
  end.

(** A [@field_validator] (mode "after"): it runs on the coerced value of
    a supplied field, and its [ValueError] becomes a validation error. *)
Definition validated {A} (k : string) (validator : A -> result A) (a : A) : result A :=
  match validator a with
  | Ok a' => Ok a'
  | Raise e => invalid k (exn_msg e)
  end.

Definition optional_validated {A} (d : dict) (k : string) (parse : json -> option A)
    (dflt : A) (validator : A -> result A) : result A :=
  match d !! k with
  | None => Ok dflt
  | Some v => parsed k (parse v) ≫= validated k validator
  end.

(** [Optional[T]] *)
Definition nullable {A} (parse : json -> option A) (v : json) : option (option A) :=
  match v with
  | JNull => Some None
  | _ => Some <$> parse v
  end.

(** [Literal[...]] over strings *)
Definition literal (allowed : list string) (v : json) : option string :=
  match v with
  | JStr s => if bool_decide (s ∈ allowed) then Some s else None
  | _ => None
  end.

Definition as_dict (v : json) : option dict :=
  match v with JObj m => Some m | _ => None end.

Definition SIZE_ENUM : list string := ["infinitetalk-480"; "infinitetalk-720"].
Definition MODE_ENUM : list string := ["clip"; "streaming"].
Definition AUDIO_MODE_ENUM : list string := ["para"; "add"].
Definition STORE_ENUM : list string := ["s3"; "volume"; "inline"].
Definition QUANT_ENUM : list string := ["int8"; "fp8"].

Section Schema.
Context (co : Scalars).

(** [Field(min_length=1)] on a string *)
Definition str_min1 (v : json) : option string :=
  s ← as_str v; if String.eqb s "" then None else Some s.

Definition list_of {A} (parse : json -> option A) (v : json) : option (list A) :=
  match v with
  | JList l => mapM parse l
  | _ => None
  end.

Definition sub_optional {A} (d : dict) (k : string) (parse : json -> option A) (dflt : A)
  : option A :=
  match d !! k with
  | None => Some dflt
  | Some v => parse v
  end.

Record OutputConfig : Type := mk_OutputConfig {
  store : string;
  bucket : option string;
  region : option string;
  prefix : option string
}.

Definition OutputConfig_default : OutputConfig := mk_OutputConfig "s3" None None None.

Definition OutputConfig_parse (v : json) : option OutputConfig :=
  d ← as_dict v;
  st ← sub_optional d "store" (literal STORE_ENUM) "s3";
  b ← sub_optional d "bucket" (nullable as_str) None;
  r ← sub_optional d "region" (nullable as_str) None;
  p ← sub_optional d "prefix" (nullable as_str) None;
  Some (mk_OutputConfig st b r p).

Record TtsAudio : Type := mk_TtsAudio {
  text : string;
  human1_voice : option string;
  human2_voice : option string
}.

Definition TtsAudio_parse (v : json) : option TtsAudio :=
  d ← as_dict v;
  t ← d !! "text" ≫= str_min1;
  h1 ← sub_optional d "human1_voice" (nullable as_str) None;
  h2 ← sub_optional d "human2_voice" (nullable as_str) None;
  Some (mk_TtsAudio t h1 h2).

Record CondAudio : Type := mk_CondAudio {
  person1 : option string;
  person2 : option string
}.

Definition CondAudio_parse (v : json) : option CondAudio :=
  d ← as_dict v;
  p1 ← sub_optional d "person1" (nullable as_str) None;
  p2 ← sub_optional d "person2" (nullable as_str) None;
  Some (mk_CondAudio p1 p2).

(** The generation parameters, declared field for field alike in
    [SingleInput] and [BatchInput]. *)
Record GenFields : Type := mk_GenFields {
  size : string;
  mode : string;
  frame_num : Z;
  max_frame_num : Z;
  sample_steps : Z;
  sample_text_guide_scale : Q;
  sample_audio_guide_scale : Q;
  motion_frame : Z;
  color_correction_strength : Q;
  use_teacache : bool;
  teacache_thresh : Q;
  use_apg : bool;
  apg_momentum : Q;
  apg_norm_threshold : Q;
  base_seed : Z;
  num_persistent_param_in_dit : option Z;
  offload_model : option bool;
  quant : option string;
  quant_dir : option string;
  n_prompt : option string
}.

Definition validate_frame_num_4n_plus_1 (v : Z) : result Z :=
  if ((v <=? 0) || negb ((v - 1) mod 4 =? 0))%bool
  then Raise (mk_exn ValueError "frame_num must be 4n+1 and positive")
  else Ok v.

(** The [frame_num] field: coercion to [int], then the validator. *)
Definition field_frame_num (d : dict) : result Z :=
  optional_validated d "frame_num" (as_int co) 81 validate_frame_num_4n_plus_1.

Definition GenFields_parse (d : dict) : result GenFields :=
  sz ← optional d "size" (literal SIZE_ENUM) "infinitetalk-480";
  md ← optional d "mode" (literal MODE_ENUM) "clip";
  fn ← field_frame_num d;
  mfn ← optional d "max_frame_num" (as_int co) 1000;
  ss ← optional d "sample_steps" (as_int co) 40;
  stg ← optional d "sample_text_guide_scale" (as_float co) 5.0%Q;
  sag ← optional d "sample_audio_guide_scale" (as_float co) 4.0%Q;
  mf ← optional d "motion_frame" (as_int co) 9;
  ccs ← optional d "color_correction_strength" (as_float co) 1.0%Q;
  tc ← optional d "use_teacache" (as_bool co) false;
  tct ← optional d "teacache_thresh" (as_float co) 0.2%Q;
  apg ← optional d "use_apg" (as_bool co) false;
  apm ← optional d "apg_momentum" (as_float co) (-0.75)%Q;
  apn ← optional d "apg_norm_threshold" (as_float co) 55.0%Q;
  bs ← optional d "base_seed" (as_int co) 42;
  npp ← optional d "num_persistent_param_in_dit" (nullable (as_int co)) None;
  om ← optional d "offload_model" (nullable (as_bool co)) None;
  qt ← optional d "quant" (nullable (literal QUANT_ENUM)) None;
  qd ← optional d "quant_dir" (nullable as_str) None;
  np ← optional d "n_prompt" (nullable as_str) None;
  Ok (mk_GenFields sz md fn mfn ss stg sag mf ccs tc tct apg apm apn bs npp om qt qd np).

(** The cross-field checks shared by both [validate_audio_refs]
    methods. *)
Definition validate_audio_refs (cond_audio : option CondAudio) (tts_audio : option TtsAudio)
    (audio_type : option string) (g : GenFields) : result unit :=
  if (bool_decide (cond_audio = None) && bool_decide (tts_audio = None))%bool
  then Raise (mk_exn ValueError "Either cond_audio or tts_audio must be provided.")
  else if match cond_audio with
          | Some ca => (bool_decide (person2 ca ≠ None) && bool_decide (audio_type = None))%bool
          | None => false
          end
  then Raise (mk_exn ValueError
         "audio_type is required when two speakers are provided (person1 & person2).")
  else if (bool_decide (quant g ≠ None) &&
           negb match quant_dir g with
                | Some s => negb (String.eqb s "")
                | None => false
                end)%bool
  then Raise (mk_exn ValueError "quant_dir must be provided when quant is set.")
  else Ok tt.

(** A [@model_validator(mode="after")] *)
Definition model_validated (r : result unit) : result unit :=
  match r with
  | Ok tt => Ok tt
  | Raise e => invalid "model" (exn_msg e)
  end.

Record SingleInput : Type := mk_SingleInput {
  si_prompt : string;
  si_cond_video : string;
  si_cond_audio : option CondAudio;
  si_tts_audio : option TtsAudio;
  si_audio_type : option string;
  si_bbox : option (list Z);
  si_gen : GenFields;
  si_output_config : OutputConfig
}.

Definition validate_bbox (v : option (list Z)) : result (option (list Z)) :=
  match v with
  | None => Ok None
  | Some l =>
      (* every element is an [int] once coerced *)
      if negb (Nat.eqb (length l) 4)
      then Raise (mk_exn ValueError "bbox must be an array of 4 integers [x1,y1,x2,y2]")
      else Ok (Some l)
  end.

Definition SingleInput_model_validate (d : dict) : result SingleInput :=
  pr ← required d "prompt" str_min1;
  cv ← required d "cond_video" as_str;
  ca ← optional d "cond_audio" (nullable CondAudio_parse) None;
  tts ← optional d "tts_audio" (nullable TtsAudio_parse) None;
  aty ← optional d "audio_type" (nullable (literal AUDIO_MODE_ENUM)) None;
  bb ← optional_validated d "bbox" (nullable (list_of (as_int co))) None validate_bbox;
  g ← GenFields_parse d;
  oc ← optional d "output_config" OutputConfig_parse OutputConfig_default;
  _ ← model_validated (validate_audio_refs ca tts aty g);
  Ok (mk_SingleInput pr cv ca tts aty bb g oc).

Record BatchInput : Type := mk_BatchInput {
  bi_id : option string;
  bi_prompt : string;
  bi_cond_video : string;
  bi_cond_audio : option CondAudio;
  bi_tts_audio : option TtsAudio;
  bi_audio_type : option string;
  bi_bbox : option (list Z);
  bi_gen : GenFields
}.

Definition BatchInput_model_validate (it : json) : result BatchInput :=
  match it with
  | JObj d =>
      i ← optional d "id" (nullable as_str) None;
      pr ← required d "prompt" as_str;
      cv ← required d "cond_video" as_str;
      ca ← optional d "cond_audio" (nullable CondAudio_parse) None;
      tts ← optional d "tts_audio" (nullable TtsAudio_parse) None;
      aty ← optional d "audio_type" (nullable (literal AUDIO_MODE_ENUM)) None;
      bb ← optional d "bbox" (nullable (list_of (as_int co))) None;
      g ← GenFields_parse d;
      _ ← model_validated (validate_audio_refs ca tts aty g);
      Ok (mk_BatchInput i pr cv ca tts aty bb g)
  | _ => invalid "batch" "Input should be a valid dictionary"
  end.

(** [for it in items: BatchInput.model_validate(it)] *)
Fixpoint validate_items (items : list json) : result unit :=
  match items with
  | [] => Ok tt
  | it :: rest => _ ← BatchInput_model_validate it; validate_items rest
  end.

Definition check_single_or_batch (payload : dict) : result unit :=
  match payload !! "batch" with
  | Some items =>
      match items with
      | JList (it :: rest) => validate_items (it :: rest)
      | _ => Raise (mk_exn ValueError "batch must be a non-empty array of input objects.")
      end
  | None => _ ← SingleInput_model_validate payload; Ok tt
  end.

Record EnvelopeInput : Type := mk_EnvelopeInput {
  input : dict;
  policy : option dict
}.

Definition EnvelopeInput_model_validate (envelope : dict) : result EnvelopeInput :=
  inp ← required envelope "input" as_dict;
  pol ← optional envelope "policy" (nullable as_dict) None;
  _ ← model_validated (check_single_or_batch inp);
  Ok (mk_EnvelopeInput inp pol).

(** [{**defaults.get("generation", {}), **single}], then the output
    default.  Unpacking anything but a mapping is a [TypeError]. *)
Definition apply_defaults_to_single (single : dict) (defaults : dict) : result dict :=
  gen ← match defaults !! "generation" with
        | None => Ok ∅
        | Some (JObj g) => Ok g
        | Some _ => Raise (mk_exn TypeError "object is not a mapping")
        end;
  let merged : dict := single ∪ gen in
  Ok (match merged !! "output_config", defaults !! "output" with
      | None, Some out => <["output_config" := out]> merged
      | _, _ => merged
      end).

(** The [generation] sub-tree of the defaults document. *)
Definition generation_of (defaults : dict) : dict :=
  match defaults !! "generation" with
  | Some (JObj g) => g
  | _ => ∅
  end.

(** The batch loop of [normalize_and_validate]. *)
Fixpoint normalize_items (items : list json) (defaults : dict) : result (list json) :=
  match items with
  | [] => Ok []
  | it :: rest =>
      single ← match it with
               | JObj d => Ok d
               | _ => Raise (mk_exn TypeError "object is not a mapping")
               end;
      norm ← apply_defaults_to_single single defaults;
      _ ← BatchInput_model_validate (JObj norm);
      normalized_items ← normalize_items rest defaults;
      Ok (JObj norm :: normalized_items)
  end.

Definition normalize_and_validate (envelope : dict) (defaults : dict) : result dict :=
  env ← EnvelopeInput_model_validate envelope;
  let payload := input env in
  match payload !! "batch" with
  | Some items =>
      normalized_items ← normalize_items
                           (match items with JList l => l | _ => [] end) defaults;
      let result : dict := {["batch" := JList normalized_items]} in
      Ok (match payload !! "output_config" with
          | Some oc => <["output_config" := oc]> result
          | None => result
          end)
  | None =>
      norm ← apply_defaults_to_single payload defaults;
      _ ← SingleInput_model_validate norm;
      Ok norm
  end.

End Schema.

(** An item the [BatchInput] model accepts. *)
Definition valid_item (co : Scalars) (it : json) : Prop :=
  is_ok (BatchInput_model_validate co it) = true.

Record ErrorDetails : Type := mk_ErrorDetails {
  code : string;
  message : string;
  retryable : bool;
  at_stage : option string;
  cause_class : option string;
  cause_message : option string
}.

Definition build_error (code message : string) (retryable : bool)
    (at_stage : option string) (exc : option exn) : ErrorDetails :=
  mk_ErrorDetails code message retryable at_stage
    (class_name ∘ exn_class <$> exc) (exn_msg <$> exc).

End Validator.

(** ** worker/storage.py *)

Module Storage.

Definition DEFAULT_TIMEOUT : Z := 30.
Definition MAX_RETRIES : Z := 3.
Definition BACKOFF_SEC : Q := 1.5%Q.

Record DownloadResult : Type := mk_DownloadResult {
  path : string;
  bytes : Z;
  mime : option string;
  from_url : option string
}.

(** [os.path.join] of two components *)
Definition path_join (a b : string) : string :=
  if String.prefix "/" b then b
  else if (String.eqb a "" || String.prefix "/" (String.rev a))%bool then a +:+ b
  else a +:+ "/" +:+ b.

(** The text before the first occurrence of [c], and the text after it
    (empty when [c] does not occur). *)
Fixpoint before (c : ascii) (s : string) : string :=
  match s with
  | EmptyString => EmptyString
  | String x r => if Ascii.eqb x c then EmptyString else String x (before c r)
  end.

Fixpoint after (c : ascii) (s : string) : string :=
  match s with
  | EmptyString => EmptyString
  | String x r => if Ascii.eqb x c then r else after c r
  end.

Definition _is_base64_payload (w : World) (s : string) : bool :=
  if (String.prefix "data:" s && contains ";base64," s)%bool then true
  else w_b64_valid w s.

Definition _mime_to_ext (mime : option string) : string :=
  match mime with
  | None => ""
  | Some m =>
      if String.eqb m "" then ""
      else if String.eqb m "image/jpeg" then ".jpg"
      else if String.eqb m "image/png" then ".png"
      else if String.eqb m "image/webp" then ".webp"
      else if String.eqb m "video/mp4" then ".mp4"
      else if String.eqb m "video/quicktime" then ".mov"
      else if String.eqb m "audio/wav" then ".wav"
      else if String.eqb m "audio/x-wav" then ".wav"
      else if String.eqb m "audio/mpeg" then ".mp3"
      else if String.eqb m "audio/mp3" then ".mp3"
      else if String.eqb m "audio/flac" then ".flac"
      else if String.eqb m "audio/ogg" then ".ogg"
      else ""
  end.

(** [save_temp] with an explicit file name *)
Definition save_temp (w : World) (workdir filename : string) : Py string :=
  let workdir := if String.eqb workdir "" then "/tmp" else workdir in
  _ ← makedirs w workdir;
  let out := path_join workdir filename in
  _ ← emit (EvWriteFile out);
  mret out.

Definition decode_base64_to_file (w : World) (data workdir suggested_name : string)
  : Py DownloadResult :=
  if (String.prefix "data:" data && contains ";base64," data)%bool then
    let header := before "," data in
    let b64 := after "," data in
    let mime := before ";" (before ":" (after ":" header)) in
    let ext := _mime_to_ext (Some mime) in
    n ← lift (w_b64_decode w b64);
    p ← save_temp w workdir (suggested_name +:+ ext);
    mret (mk_DownloadResult p n (Some mime) None)
  else
    n ← lift (w_b64_decode w data);
    p ← save_temp w workdir suggested_name;
    mret (mk_DownloadResult p n None None).

(** [x or y] on optional strings *)
Definition str_truthy (o : option string) : bool :=
  match o with
  | Some s => negb (String.eqb s "")
  | None => false
  end.

(** The body of the [try] block: one streamed GET, written to disk and
    verified against the checksum when one was given. *)
Definition attempt_once (w : World) (url workdir : string) (filename : option string)
    (checksum_sha256 : option string) (attempt : Z) : Py DownloadResult :=
  _ ← emit (EvHttpGet url attempt);
  o ← ask (fun tr => w_http_get w tr url);
  match o with
  | HttpRaise e => raise e
  | HttpBody mime total digest =>
      let ext := _mime_to_ext mime in
      let name :=
        if str_truthy filename then default "" filename
        else if negb (String.eqb (w_url_basename w url) "") then w_url_basename w url
        else "blob" +:+ ext in
      let name :=
        if (negb (w_has_ext w name) && negb (String.eqb ext ""))%bool
        then name +:+ ext else name in
      _ ← makedirs w workdir;
      let out_path := path_join workdir name in
      _ ← emit (EvWriteFile out_path);
      if (str_truthy checksum_sha256 &&
          negb (String.eqb digest (lower (default "" checksum_sha256))))%bool
      then raise (mk_exn ValueError "Checksum mismatch for downloaded file.")
      else mret (mk_DownloadResult out_path total mime (Some url))
  end.

(** [for attempt in range(1, MAX_RETRIES + 1)], over the attempts that
    remain. *)
Fixpoint retry_loop (w : World) (url workdir : string) (filename : option string)
    (checksum_sha256 : option string) (attempts : list Z) (last_err : option exn)
  : Py DownloadResult :=
  match attempts with
  | [] => raise (default (mk_exn RuntimeError "Unknown download error") last_err)
  | attempt :: rest =>
      try_except (attempt_once w url workdir filename checksum_sha256 attempt)
        (fun e =>
           if attempt =? MAX_RETRIES then raise e
           else
             _ ← emit (EvSleep (BACKOFF_SEC * inject_Z attempt));
             retry_loop w url workdir filename checksum_sha256 rest (Some e))
  end.

Definition download_from_url (w : World) (url_or_b64_or_path workdir : string)
    (filename : option string) (checksum_sha256 : option string) : Py DownloadResult :=
  ex ← ask (fun tr => w_path_exists w tr url_or_b64_or_path);
  if ex : bool then
    size ← ask (fun tr => w_getsize w tr url_or_b64_or_path) ≫= lift;
    mret (mk_DownloadResult url_or_b64_or_path size None None)
  else if _is_base64_payload w url_or_b64_or_path then
    decode_base64_to_file w url_or_b64_or_path workdir
      (if str_truthy filename then default "" filename else "blob")
  else
    let scheme := w_url_scheme w url_or_b64_or_path in
    if bool_decide (scheme ∈ ["http"; "https"]) then
      retry_loop w url_or_b64_or_path workdir filename checksum_sha256
        (seqZ 1 MAX_RETRIES) None
    else
      raise (mk_exn ValueError
        "Unsupported input reference; must be http(s) URL, base64, or existing local path.").

Definition upload_to_presigned_url (w : World) (file_path : string) (presigned_url : json)
  : Py Z :=
  _ ← emit (EvUpload file_path presigned_url);
  r ← ask (fun tr => w_upload w tr file_path presigned_url);
  lift r.

Definition make_artifact (type_ : string) (path : option string) (url : json)
    (mime : option string) (bytes_ : option Z) : dict :=
  let rec : dict := {["type" := JStr type_]} in
  let rec := if truthy url then <["url" := url]> rec else rec in
  let rec := if str_truthy path then <["path" := JStr (default "" path)]> rec else rec in
  let rec := if str_truthy mime then <["mime" := JStr (default "" mime)]> rec else rec in
  match bytes_ with
  | Some b => <["bytes" := JInt b]> rec
  | None => rec
  end.

End Storage.

(** ** worker/pipeline.py *)

Module Pipeline.
Import Storage.

(** [d.get(k, dflt)] *)
Definition get_or (d : dict) (k : string) (dflt : json) : json :=
  default dflt (d !! k).

(** [d[k]] *)
Definition getitem (d : dict) (k : string) : result json :=
  match d !! k with
  | Some v => Ok v
  | None => Raise (mk_exn KeyError ("'" +:+ k +:+ "'"))
  end.

(** [v.get(k)] on a value that should be a dictionary *)
Definition attr_get (v : json) (k : string) : result json :=
  match v with
  | JObj m => Ok (py_get m k)
  | _ => Raise (mk_exn AttributeError "object has no attribute 'get'")
  end.

(** [v == "s"] *)
Definition eq_str (v : json) (s : string) : bool :=
  match v with JStr x => String.eqb x s | _ => false end.

(** [int(v)]: a number is truncated towards zero; how text is read
    ([int_of_str]: blanks, signs, underscores, digits of other scripts,
    the length limit) is the interpreter's. *)
Definition py_int (int_of_str : string -> result Z) (v : json) : result Z :=
  match v with
  | JInt z => Ok z
  | JBool b => Ok (if b then 1 else 0)
  | JFloat q => Ok (Z.quot (Qnum q) (Zpos (Qden q)))
  | JStr s => int_of_str s
  | _ => Raise (mk_exn TypeError "int() argument must be a string or a number")
  end.

(** [str(n)] of an integer *)
Definition str_int (z : Z) : string := NilZero.string_of_int (Z.to_int z).

(** [str(v)], also inside an f-string: the text of a float or of a
    container ([str_of]) is the interpreter's. *)
Definition py_str (str_of : json -> string) (v : json) : string :=
  match v with
  | JStr s => s
  | JInt z => str_int z
  | JBool true => "True"
  | JBool false => "False"
  | JNull => "None"
  | _ => str_of v
  end.

Definition as_path (v : json) : result string :=
  match v with
  | JStr s => Ok s
  | _ => Raise (mk_exn TypeError "expected str, bytes or os.PathLike object")
  end.

Definition _resolve_model_paths (w : World) : Env := w_env w.

Definition download_meta (r : DownloadResult) : json :=
  JObj (<["bytes" := JInt (bytes r)]>
        {["mime" := match mime r with Some m => JStr m | None => JNull end]}).

Definition _prepare_inputs (w : World) (params : dict) (workdir : string)
  : Py (dict * dict) :=
  prompt ← lift (getitem params "prompt");
  let input_data : dict := {["prompt" := prompt]} in
  cv ← lift (getitem params "cond_video" ≫= as_path);
  vid_res ← download_from_url w cv workdir (Some "cond_video") None;
  let input_data := <["cond_video" := JStr (path vid_res)]> input_data in
  let downloads : dict := {["cond_video" := download_meta vid_res]} in
  let cond_audio := py_get params "cond_audio" in
  let tts_audio := py_get params "tts_audio" in
  let audio_type := py_get params "audio_type" in
  let audio_save_dir := path_join workdir "audio" in
  _ ← makedirs w audio_save_dir;
  let model_paths := _resolve_model_paths w in
  if negb (str_truthy (WAV2VEC_DIR model_paths))
  then raise (mk_exn RuntimeError "WAV2VEC_DIR env var is required for audio embedding.")
  else
  _ ← emit EvCustomInit;
  _ ← ask (w_custom_init w) ≫= lift;
  p1ref ← (if truthy cond_audio then lift (attr_get cond_audio "person1") else mret JNull);
  '(input_data, downloads) ←
    (if (truthy cond_audio && truthy p1ref)%bool then
       p2ref ← lift (attr_get cond_audio "person2");
       match p2ref with
       | JNull =>
           (* single speaker *)
           r1 ← lift (as_path p1ref);
           p1 ← download_from_url w r1 workdir (Some "p1") None;
           _ ← emit (EvAudioPrepare 1);
           _ ← ask (fun tr => w_audio_prepare w tr [path p1]) ≫= lift;
           let emb1_path := path_join audio_save_dir "1.pt" in
           let sum_audio := path_join audio_save_dir "sum.wav" in
           mret (<["video_audio" := JStr sum_audio]>
                   (<["cond_audio" := JObj {["person1" := JStr emb1_path]}]> input_data),
                 <["person1" := download_meta p1]> downloads)
       | _ =>
           (* two speakers *)
           r1 ← lift (as_path p1ref);
           p1 ← download_from_url w r1 workdir (Some "p1") None;
           r2 ← lift (as_path p2ref);
           p2 ← download_from_url w r2 workdir (Some "p2") None;
           _ ← emit (EvAudioPrepare 2);
           _ ← ask (fun tr => w_audio_prepare w tr [path p1; path p2]) ≫= lift;
           let emb1_path := path_join audio_save_dir "1.pt" in
           let emb2_path := path_join audio_save_dir "2.pt" in
           let sum_audio := path_join audio_save_dir "sum.wav" in
           let aty := if truthy audio_type then audio_type else JStr "para" in
           mret (<["video_audio" := JStr sum_audio]>
                   (<["audio_type" := aty]>
                      (<["cond_audio" := JObj (<["person2" := JStr emb2_path]>
                                                 {["person1" := JStr emb1_path]})]>
                         input_data)),
                 <["person2" := download_meta p2]>
                   (<["person1" := download_meta p1]> downloads))
       end
     else
       txt ← (if truthy tts_audio then lift (attr_get tts_audio "text") else mret JNull);
       if (truthy tts_audio && truthy txt)%bool then
         raise (mk_exn NotImplementedError
           "tts_audio is not supported in this worker build. Provide cond_audio instead.")
       else raise (mk_exn ValueError "cond_audio or tts_audio must be provided."));
  let input_data :=
    match params !! "bbox" with
    | Some b => <["bbox" := b]> input_data
    | None => input_data
    end in
  mret (input_data, ({["downloads" := JObj downloads]} : dict)).

Definition _build_pipeline (w : World) (params : dict) : Py unit :=
  let model_paths := _resolve_model_paths w in
  if (negb (str_truthy (CKPT_DIR model_paths)) ||
      negb (str_truthy (INFINITETALK_DIR model_paths)))%bool
  then raise (mk_exn RuntimeError
         "Model paths CKPT_DIR and INFINITETALK_DIR must be set in environment.")
  else
    _ ← emit (EvBuildPipeline params);
    ask (fun tr => w_pipeline_ctor w tr params) ≫= lift.

Definition _run_generate (w : World) (input_data params : dict) : Py unit :=
  size_buckget ← lift (getitem params "size");
  let motion_frame := get_or params "motion_frame" (JInt 9) in
  let frame_num := get_or params "frame_num" (JInt 81) in
  let shift := if eq_str size_buckget "infinitetalk-480" then 7 else 11 in
  let sampling_steps := get_or params "sample_steps" (JInt 40) in
  let text_guide_scale := get_or params "sample_text_guide_scale" (JFloat 5.0) in
  let audio_guide_scale := get_or params "sample_audio_guide_scale" (JFloat 4.0) in
  let seed := get_or params "base_seed" (JInt 42) in
  let offload_model := get_or params "offload_model" (JBool true) in
  let max_frames_num :=
    if eq_str (get_or params "mode" (JStr "clip")) "clip" then frame_num
    else get_or params "max_frame_num" (JInt 1000) in
  let color_correction_strength := get_or params "color_correction_strength" (JFloat 1.0) in
  let args := mk_gen_args input_data size_buckget motion_frame frame_num shift
                sampling_steps text_guide_scale audio_guide_scale seed offload_model
                max_frames_num color_correction_strength in
  _ ← emit (EvGenerate args);
  ask (fun tr => w_generate w tr args) ≫= lift.

(** The reduced configuration of the out-of-memory retry. *)
Definition reduced (w : World) (params : dict) : result dict :=
  steps ← py_int (w_int_of_str w) (get_or params "sample_steps" (JInt 40));
  Ok (<["sample_steps" := JInt (Z.min 8 steps)]>
        (<["size" := JStr "infinitetalk-480"]> params)).

Record InferenceResult : Type := mk_InferenceResult {
  video_path : string;
  thumbnail_path : option string;
  result_bytes : Z;
  meta : dict
}.

Definition run_inference (w : World) (params : dict) (workdir : string)
  : Py InferenceResult :=
  _ ← makedirs w workdir;
  '(input_data, meta) ← _prepare_inputs w params workdir;
  _ ← _build_pipeline w params;
  _ ← try_except (_run_generate w input_data params)
        (fun e =>
           if is_OutOfMemoryError (exn_class e) then
             (* Retry once with reduced settings *)
             reduce ← lift (reduced w params);
             _ ← emit (EvLog "WARN" "oom_retry");
             _ ← _build_pipeline w reduce;
             _run_generate w input_data reduce
           else raise e);
  let save_name :=
    "infitalk_" +:+ py_str (w_str w) (get_or params "size" (JStr "infinitetalk-480")) +:+
    "_" +:+ py_str (w_str w) (get_or params "sample_steps" (JInt 40)) +:+ "_seed" +:+
    py_str (w_str w) (get_or params "base_seed" (JInt 42)) in
  let save_path_noext := path_join workdir save_name in
  _ ← lift (getitem input_data "video_audio");
  _ ← emit (EvSaveVideo save_path_noext);
  _ ← ask (fun tr => w_save_video w tr save_path_noext) ≫= lift;
  let mp4_path := save_path_noext +:+ ".mp4" in
  bytes_len ← ask (fun tr => w_getsize w tr mp4_path) ≫= lift;
  mret (mk_InferenceResult mp4_path None bytes_len meta).

End Pipeline.

(** ** worker/logging_utils.py *)

Module Logging.

Definition log_event (level event : string) : Py unit :=
  let level := if bool_decide (level ∈ ["INFO"; "WARN"; "ERROR"]) then level else "INFO" in
  emit (EvLog level event).

(** The [timeit_stage] context manager around a block. *)
Definition timeit_stage {A} (event : string) (body : Py A) : Py A :=
  _ ← emit (EvLog "INFO" event);
  a ← try_except body
        (fun e => _ ← emit (EvLog "ERROR" "stage_error"); raise e);
  _ ← emit (EvLog "INFO" (event +:+ "_ok"));
  mret a.

End Logging.

(** ** worker/handler.py *)

Module Handler.
Import Validator Storage Pipeline Logging.

Definition ERROR_RETRYABLE : gmap string bool :=
  list_to_map [
    ("E_INPUT_VALIDATION", false);
    ("E_DOWNLOAD_FAILED", true);
    ("E_AUDIO_EMBEDDING", true);
    ("E_PIPELINE_LOAD", false);
    ("E_OOM", false);
    ("E_FFMPEG", true);
    ("E_GENERATION_RUNTIME", false);
    ("E_UPLOAD", true);
    ("E_TIMEOUT", true)
  ].

Definition _progress (event : string) (pct : Z) (item_id : option string)
    (item_index : option nat) : Py unit :=
  _ ← emit (EvProgress event pct item_id item_index);
  log_event "INFO" event.

(** [_seed_everything]: when importing or seeding one of the libraries
    raises, [random] alone is seeded. *)
Definition _seed_everything (w : World) (seed : Z) : Py unit :=
  try_except
    (_ ← emit (EvSeedEverything seed);
     ask (fun tr => w_seed_all w tr seed) ≫= lift)
    (fun _ => emit (EvRandomSeed seed)).

Definition _maybe_keep_warm : Py unit :=
  emit EvKeepWarm.

Definition WARN_INLINE : string :=
  "Returning inline base64 video. This is not recommended for large outputs.".
Definition WARN_LOCAL : string :=
  "No presigned URL provided; returning local path. Configure S3 uploads for production.".

Definition _upload_artifacts_if_any (w : World) (out_cfg : json) (video_path mime : string)
    (size_bytes : Z) : Py (list dict * list string * dict) :=
  cfg ← lift (match (if truthy out_cfg then out_cfg else JObj ∅) with
              | JObj m => Ok m
              | _ => Raise (mk_exn AttributeError "object has no attribute 'get'")
              end);
  let store := get_or cfg "store" (JStr "s3") in
  match cfg !! "video_url" with
  | Some vurl =>
      (* PUT to presigned URL *)
      status ← upload_to_presigned_url w video_path vurl;
      if negb (status / 100 =? 2)
      then raise (mk_exn RuntimeError
             ("Upload to presigned URL failed with status " +:+ str_int status))
      else
        let video_summary : dict :=
          <["url" := vurl]> (<["mime" := JStr mime]> {["bytes" := JInt size_bytes]}) in
        mret ([make_artifact "video" None vurl (Some mime) (Some size_bytes)], [],
              video_summary)
  | None =>
      (* Fallback: local path result *)
      let art := make_artifact "video" (Some video_path) JNull (Some mime) (Some size_bytes) in
      let video_summary : dict :=
        <["url" := JNull]> (<["mime" := JStr mime]> {["bytes" := JInt size_bytes]}) in
      if eq_str store "inline" then
        try_except
          (_ ← emit (EvReadFile video_path);
           b64 ← ask (fun tr => w_read_b64 w tr video_path) ≫= lift;
           mret ([<["base64" := JStr b64]> art], [WARN_INLINE], video_summary))
          (fun _ => mret ([art], [], video_summary))
      else mret ([art], [WARN_LOCAL], video_summary)
  end.

(** The error envelope.  When the [ErrorOutput] model rejects it (the
    job id is not text) [_error_output] returns it unvalidated, with the
    same content. *)
Record ErrorOutput : Type := mk_ErrorOutput {
  eo_job_id : json;
  eo_status : string;
  eo_error : ErrorDetails;
  eo_diagnostics : string;                 (* diagnostics.stderr_tail *)
  eo_timings : gmap string Z;
  eo_checkpoints : list CheckpointEvt
}.

Definition _error_output (w : World) (job_id : json) (code message : string)
    (at_stage : option string) (exc : option exn) (checkpoints : list CheckpointEvt)
    (timings : gmap string Z) : Py ErrorOutput :=
  let retryable := default false (ERROR_RETRYABLE !! code) in
  let details := build_error code message retryable at_stage exc in
  tail ← ask (w_format_exc w);
  mret (mk_ErrorOutput job_id "error" details tail timings checkpoints).

Record Artifact : Type := mk_Artifact {
  a_type : string;
  a_url : option string;
  a_path : option string;
  a_mime : option string;
  a_bytes : option Z
}.

Record SuccessOutput : Type := mk_SuccessOutput {
  so_job_id : string;
  so_status : string;
  so_video : dict;
  so_timings : gmap string Z;
  so_params : dict;
  so_artifacts : list Artifact;
  so_warnings : list string;
  so_checkpoints : list CheckpointEvt
}.

Section WithScalars.
Context (co : Scalars).

(** The [Artifact] model: unknown keys such as [base64] are dropped. *)
Definition Artifact_model_validate (d : dict) : result Artifact :=
  ty ← required d "type" (literal ["video"; "thumbnail"; "metadata"]);
  u ← optional d "url" (nullable as_str) None;
  p ← optional d "path" (nullable as_str) None;
  m ← optional d "mime" (nullable as_str) None;
  b ← optional d "bytes" (nullable (as_int co)) None;
  Ok (mk_Artifact ty u p m b).

Fixpoint validate_artifacts (l : list dict) : result (list Artifact) :=
  match l with
  | [] => Ok []
  | d :: rest =>
      a ← Artifact_model_validate d;
      r ← validate_artifacts rest;
      Ok (a :: r)
  end.

Definition _success_output (job_id : json) (params video_summary : dict)
    (artifacts : list dict) (warnings : list string) (timings : gmap string Z)
    (checkpoints : list CheckpointEvt) : result SuccessOutput :=
  let echoed : dict :=
    list_to_map [
      ("size", py_get params "size");
      ("frame_num", py_get params "frame_num");
      ("sample_steps", py_get params "sample_steps");
      ("motion_frame", py_get params "motion_frame");
      ("use_teacache", py_get params "use_teacache");
      ("use_apg", py_get params "use_apg");
      ("base_seed", py_get params "base_seed")
    ] in
  jid ← parsed "job_id" (as_str job_id);
  arts ← validate_artifacts artifacts;
  Ok (mk_SuccessOutput jid "success" video_summary timings echoed arts warnings
        checkpoints).

Inductive JobResult : Type :=
| Success (out : SuccessOutput)
| Error (out : ErrorOutput).

(** [result.get("status")] *)
Definition status (r : JobResult) : string :=
  match r with
  | Success o => so_status o
  | Error o => eo_status o
  end.

Definition checkpoints (r : JobResult) : list CheckpointEvt :=
  match r with
  | Success o => so_checkpoints o
  | Error o => eo_checkpoints o
  end.

(** The closure [cp] of [_run_single_item]. *)
Definition cp (w : World) (item_id : option string) (item_index : option nat)
    (name : string) (pct : Z) : Py unit :=
  ts ← ask (w_iso_now w);
  _ ← push_checkpoint (mk_cp name ts);
  _progress name pct item_id item_index.

(** The error code chosen by the three [except] clauses, with the
    message and stage they report. *)
Definition except_code (e : exn) : string * string * string :=
  if is_RuntimeError (exn_class e) then
    let msg := exn_msg e in
    (if contains "Model paths" msg then "E_PIPELINE_LOAD" else "E_GENERATION_RUNTIME",
     msg, "runtime")
  else if is_MemoryError (exn_class e) then
    ("E_OOM", "Out of memory.", "generation")
  else
    (* Map specific hints *)
    let emsg := exn_msg e in
    (if contains "ffmpeg" (lower emsg) then "E_FFMPEG"
     else if (contains "WAV2VEC_DIR" emsg || contains "audio embedding" (lower emsg))%bool
          then "E_AUDIO_EMBEDDING"
          else "E_GENERATION_RUNTIME",
     emsg, "generation").

(** The envelope the [except] clauses build for an exception caught
    with the given trace, checkpoints and timings. *)
Definition caught (w : World) (job_id : json) (e : exn) (tr : trace)
    (cps : list CheckpointEvt) (timings : gmap string Z) : JobResult :=
  Error (mk_ErrorOutput job_id "error"
           (build_error (except_code e).1.1 (except_code e).1.2
              (default false (ERROR_RETRYABLE !! (except_code e).1.1))
              (Some (except_code e).2) (Some e))
           (w_format_exc w tr) timings cps).

(** The [try] block of [_run_single_item]. *)
Definition try_block (w : World) (job_id : json) (params : dict) (workdir : string)
    (item_id : option string) (item_index : option nat) : Py JobResult :=
  let cp := cp w item_id item_index in
  _ ← timeit_stage "models_loading" (cp "models_loading" 15);
  _ ← cp "models_ready" 18;
  _ ← cp "preprocessing_done" 19;
  (* Generate *)
  _ ← cp "generation_start" 20;
  result ← timeit_stage "generation"
             (r ← run_inference w params workdir;
              ms ← ask (w_generation_ms w);
              _ ← set_timing "generation_ms" ms;
              mret r);
  (* Postprocess mux done by pipeline; now upload if required *)
  _ ← cp "postprocess_mux" 90;
  _ ← cp "uploading_artifacts" 92;
  '(artifacts, warnings, video_summary) ←
    _upload_artifacts_if_any w (py_get params "output_config")
      (video_path result) "video/mp4" (result_bytes result);
  _ ← cp "completed" 100;
  ms ← ask (w_total_ms w);
  _ ← set_timing "total_ms" ms;
  timings ← get_timings;
  cps ← get_checkpoints;
  out ← lift (_success_output job_id params video_summary artifacts warnings timings cps);
  mret (Success out).

(** The [except] clauses of [_run_single_item]: the error envelope for
    the exception caught. *)
Definition except_clauses (w : World) (job_id : json) (e : exn) : Py JobResult :=
  let '(code, msg, stage) := except_code e in
  timings ← get_timings;
  cps ← get_checkpoints;
  out ← _error_output w job_id code msg (Some stage) (Some e) cps timings;
  mret (Error out).

Definition _run_single_item (w : World) (job_id : json) (params : dict)
    (workdir : string) (item_id : option string) (item_index : option nat)
  : Py JobResult :=
  _ ← reset_locals;
  (* Validate (already normalized upstream in run()) but we still announce stage *)
  _ ← cp w item_id item_index "validated" 2;
  try_except (try_block w job_id params workdir item_id item_index)
             (except_clauses w job_id).

Inductive RunOutput : Type :=
| Single (r : JobResult)
| Batch (job_id : json) (status : string) (items : list (string * JobResult)).

(** [item.get("id") or f"item-{idx}"] *)
Definition item_id_of (item : json) (idx : nat) : result string :=
  v ← attr_get item "id";
  if truthy v then as_path v else Ok ("item-" +:+ str_int (Z.of_nat idx)).

(** [for idx, item in enumerate(batch_items)] *)
Fixpoint run_items (w : World) (job_id : json) (base_workdir : string) (items : list json)
    (idx : nat) : Py (list (string * JobResult)) :=
  match items with
  | [] => mret []
  | item :: rest =>
      item_id ← lift (item_id_of item idx);
      let workdir := path_join base_workdir item_id in
      _ ← makedirs w workdir;
      res ← _run_single_item w job_id
              (match item with JObj d => d | _ => ∅ end) workdir (Some item_id) (Some idx);
      _ ← _maybe_keep_warm;
      out_rest ← run_items w job_id base_workdir rest (S idx);
      mret ((item_id, res) :: out_rest)
  end.

(** The items were run one after the other: each entry of [outs] is
    the result of [_run_single_item] on its item, started in the state
    the items before it left, after creating its work directory; the
    keep-warm call follows each item. *)
Fixpoint items_ran (w : World) (job_id : json) (base_workdir : string) (items : list json)
    (idx : nat) (s : St) (outs : list (string * JobResult)) (s' : St) : Prop :=
  match items, outs with
  | [], [] => s' = s
  | item :: rest, (item_id, r) :: outs' =>
      item_id_of item idx = Ok item_id ∧
      ∃ d s1,
        item = JObj d ∧
        _run_single_item w job_id d (path_join base_workdir item_id)
          (Some item_id) (Some idx)
          (mk_st (st_trace s ++ [EvMakedirs (path_join base_workdir item_id)])
                 (st_checkpoints s) (st_timings s)) = (Ok r, s1) ∧
        items_ran w job_id base_workdir rest (S idx)
          (mk_st (st_trace s1 ++ [EvKeepWarm]) (st_checkpoints s1) (st_timings s1))
          outs' s'
  | _, _ => False
  end.

Definition batch_status (out_items : list (string * JobResult)) : string :=
  if forallb (fun x => String.eqb (status x.2) "success") out_items
  then "success" else "partial".

(** [if "base_seed" in normalized: ...]: seed when the seed is an [int]
    (a [bool] is one) and not negative. *)
Definition seed_if_provided (w : World) (normalized : dict) : Py unit :=
  match normalized !! "base_seed" with
  | Some (JInt seed) => if 0 <=? seed then _seed_everything w seed else mret tt
  | Some (JBool b) => _seed_everything w (if b then 1 else 0)
  | _ => mret tt
  end.

(** The part of [run] after the input has been normalised. *)
Definition run_normalized (w : World) (job_id : json) (normalized : dict)
  : Py RunOutput :=
  let base_workdir := path_join "/tmp" ("job-" +:+ py_str (w_str w) job_id) in
  _ ← makedirs w base_workdir;
  (* Seed RNG if provided *)
  _ ← seed_if_provided w normalized;
  (* Batch or single *)
  match normalized !! "batch" with
  | Some batch_items =>
      items ← lift (match batch_items with
                    | JList l => Ok l
                    | _ => Raise (mk_exn TypeError "batch is not a list")
                    end);
      out_items ← run_items w job_id base_workdir items 0;
      mret (Batch job_id (batch_status out_items) out_items)
  | None =>
      r ← _run_single_item w job_id normalized base_workdir None None;
      mret (Single r)
  end.

(** [job.get("id") or f"local-{uuid.uuid4()}"] *)
Definition job_id_of (w : World) (job : dict) : json :=
  if truthy (py_get job "id") then py_get job "id" else JStr ("local-" +:+ w_uuid w).

(** [get_logger(cid, job_id)]: the correlation id is the key of the
    logger table, so it has to be hashable. *)
Definition get_logger (cid : json) : result unit :=
  match cid with
  | JList _ | JObj _ => Raise (mk_exn TypeError "unhashable type")
  | _ => Ok tt
  end.

Definition run (w : World) (job : dict) : Py RunOutput :=
  let job_id := job_id_of w job in
  _ ← lift (get_logger job_id);
  _ ← log_event "INFO" "received";
  _ ← _maybe_keep_warm;
  let defaults := w_defaults w in
  match normalize_and_validate co job defaults with
  | Raise e =>
      err ← _error_output w job_id "E_INPUT_VALIDATION" ("Invalid input: " +:+ exn_msg e)
              (Some "validate") (Some e) [] ∅;
      _ ← log_event "ERROR" "error";
      mret (Single (Error err))
  | Ok normalized => run_normalized w job_id normalized
  end.

End WithScalars.
End Handler.

(** ** ui/app.py: the status polling loop *)

Module Ui.
Import Pipeline.

(** Polling cadence *)
Definition POLL_INIT_SEC : Q := 2.0%Q.
Definition POLL_MAX_SEC : Q := 6.0%Q.
Definition POLL_BACKOFF_AFTER_S : Q := 120.0%Q.

(** The client's collaborators: [runpod_client.get_status], [time.time],
    [json.dumps], and the interpreter's [int] on text, [str] on floats
    and containers and [str.upper]. *)
Record Client : Type := mk_client {
  c_get_status : trace -> string -> result json;
  c_time : trace -> Q;
  c_json_dumps : json -> string;
  c_int_of_str : string -> result Z;
  c_str : json -> string;
  c_upper : string -> string
}.

Definition upper_ascii (c : ascii) : ascii :=
  let n := nat_of_ascii c in
  if (Nat.leb 97 n && Nat.leb n 122)%bool then ascii_of_nat (n - 32) else c.

(** [str.upper] on ASCII text *)
Fixpoint upper (s : string) : string :=
  match s with
  | EmptyString => EmptyString
  | String c r => String (upper_ascii c) (upper r)
  end.

Definition NL : string := String (ascii_of_nat 10) EmptyString.

Definition suggestions : gmap string string :=
  list_to_map [
    ("E_INPUT_VALIDATION", "Check required fields and parameter ranges.");
    ("E_DOWNLOAD_FAILED", "Ensure your URLs are reachable and under size limits.");
    ("E_AUDIO_EMBEDDING", "Verify audio format (prefer WAV, 16kHz/mono).");
    ("E_PIPELINE_LOAD", "Verify CKPT_DIR/INFINITETALK_DIR/WAV2VEC_DIR on the endpoint.");
    ("E_OOM", "Reduce size to 480p and steps to 8–12; set offload_model=true.");
    ("E_FFMPEG", "Ensure ffmpeg is installed and inputs are valid.");
    ("E_UPLOAD", "Check S3 credentials/bucket/prefix.");
    ("E_TIMEOUT", "Increase executionTimeout or reduce job complexity.")
  ].

(** [_format_error_message]: without a code the message is returned as
    it is; a code that is a list or a dictionary cannot be looked up. *)
Definition _format_error_message (c : Client) (code message : json) : result json :=
  let guide_link := "InfiniteTalk_Runpod_Serverless/GUIDE.md#troubleshooting" in
  if truthy code then
    let base := py_str (c_str c) code +:+ ": " +:+ py_str (c_str c) message in
    tip ← match code with
          | JStr k => Ok (default "" (suggestions !! k))
          | JList _ | JObj _ => Raise (mk_exn TypeError "unhashable type")
          | _ => Ok ""
          end;
    Ok (JStr (if negb (String.eqb tip "")
              then base +:+ NL +:+ NL +:+ "Tip: " +:+ tip +:+ NL +:+ "See: " +:+ guide_link
              else base))
  else Ok message.

(** [runpod_client.extract_progress]: the percentage and the stage
    text (the log lines only feed the log box). *)
Definition extract_progress (c : Client) (status_json : json) : result (Z * string) :=
  match status_json with
  | JObj d =>
      let p := py_get d "percent" in
      percent ← py_int (c_int_of_str c) (if truthy p then p else JInt 0);
      let status := get_or d "status" (JStr "") in
      let stage :=
        if truthy (py_get d "statusText") then py_get d "statusText"
        else if truthy (py_get d "message") then py_get d "message"
        else status in
      Ok (percent, py_str (c_str c) stage)
  | _ => Raise (mk_exn AttributeError "object has no attribute 'get'")
  end.

(** The adaptive backoff of one iteration. *)
Definition poll_interval (elapsed : Q) : Q :=
  Qmin POLL_MAX_SEC
       (POLL_INIT_SEC + (elapsed / POLL_BACKOFF_AFTER_S) * (POLL_MAX_SEC - POLL_INIT_SEC)).

(** What the loop returns: [(output_json, None)] or [(None, error_message)]. *)
Inductive poll_result : Type :=
| PollOutput (output : json)
| PollError (error_message : json).

(** What a terminal status returns. *)
Definition on_terminal (c : Client) (s : string) (status : json) : result poll_result :=
  o ← attr_get status "output";
  let output := if truthy o then o else JObj ∅ in
  if String.eqb s "COMPLETED" then Ok (PollOutput output)
  else
    match output with
    | JObj out =>
        let e := py_get out "error" in
        code ← attr_get (if truthy e then e else JObj ∅) "code";
        m ← attr_get (if truthy e then e else JObj ∅) "message";
        let msg := if truthy m then m else JStr (c_json_dumps c output) in
        r ← _format_error_message c code msg;
        Ok (PollError r)
    | _ => Ok (PollError (JStr ("Job ended with status=" +:+ s)))
    end.

(** [time.sleep(seconds)] *)
Definition sleep (seconds : Q) : Py unit :=
  if Qle_bool 0 seconds then emit (EvSleep seconds)
  else raise (mk_exn ValueError "sleep length must be non-negative").

(** [while True:] with the iterations bounded by [fuel]; [None] when the
    job is still running after that many status queries. *)
Fixpoint poll_loop (c : Client) (job_id : string) (start : Q) (fuel : nat)
  : Py (option poll_result) :=
  match fuel with
  | O => mret None
  | S fuel' =>
      _ ← emit (EvStatusQuery job_id);
      r ← ask (fun tr => c_get_status c tr job_id);
      match r with
      | Raise e => mret (Some (PollError (JStr ("Status error: " +:+ exn_msg e))))
      | Ok status =>
          '(percent, stage) ← lift (extract_progress c status);
          now ← ask (c_time c);
          let elapsed := (now - start)%Q in
          (* adaptive backoff *)
          let interval := poll_interval elapsed in
          _ ← emit (EvUiProgress percent stage);
          st ← lift (attr_get status "status");
          s ← lift (if truthy st then
                      match st with
                      | JStr x => Ok (c_upper c x)
                      | _ => Raise (mk_exn AttributeError "object has no attribute 'upper'")
                      end
                    else Ok "");
          if bool_decide (s ∈ ["COMPLETED"; "FAILED"; "TIMEOUT"]) then
            res ← lift (on_terminal c s status);
            mret (Some res)
          else
            _ ← sleep interval;
            poll_loop c job_id start fuel'
      end
  end.

Definition _poll_status_stream (c : Client) (job_id : string) (fuel : nat)
  : Py (option poll_result) :=
  start ← ask (c_time c);
  poll_loop c job_id start fuel.

(** [time.time()] never runs backwards as the effects accumulate. *)
Definition clock_monotone (c : Client) : Prop :=
  ∀ tr tr' : trace, tr `prefix_of` tr' → (c_time c tr <= c_time c tr')%Q.

(** The sleeps of a stretch of the polling loop that began at time
    [start] on the trace [tr]: each one directly follows the status
    query and the progress update of its iteration, and lasts the
    interval for the time elapsed when the clock was read, just after
    the query. *)
Definition sleeps_follow (c : Client) (job_id : string) (start : Q) (tr suf : trace) : Prop :=
  ∀ pre q post, suf = (pre ++ EvSleep q :: post)%list →
    ∃ pre0 pct stage,
      pre = (pre0 ++ [EvStatusQuery job_id; EvUiProgress pct stage])%list ∧
      q = poll_interval (c_time c (tr ++ pre0 ++ [EvStatusQuery job_id])%list - start).

(** Between the configured minimum and maximum. *)
Definition in_bounds (q : Q) : Prop :=
  (POLL_INIT_SEC <= q)%Q ∧ (q <= POLL_MAX_SEC)%Q.

End Ui.

(** ** Observations on effect traces *)

Module Obs.

Definition progress_evt (e : effect) : option (string * Z) :=
  match e with EvProgress stage pct _ _ => Some (stage, pct) | _ => None end.

Definition seed_evt (e : effect) : option Z :=
  match e with EvSeedEverything z => Some z | _ => None end.

Definition sleep_evt (e : effect) : option Q :=
  match e with EvSleep q => Some q | _ => None end.

Definition http_evt (e : effect) : option Z :=
  match e with EvHttpGet _ attempt => Some attempt | _ => None end.

Definition generate_evt (e : effect) : option gen_args :=
  match e with EvGenerate a => Some a | _ => None end.

Definition status_evt (e : effect) : option string :=
  match e with EvStatusQuery j => Some j | _ => None end.

(** The progress updates of a trace, in order: stage and percentage. *)
Definition progress_of (tr : trace) : list (string * Z) := omap progress_evt tr.

(** The seeds passed to [_seed_everything], in order. *)
Definition seeds_of (tr : trace) : list Z := omap seed_evt tr.

(** The job ids of the status queries, in order. *)
Definition queries_of (tr : trace) : list string := omap status_evt tr.

(** The durations slept, in order. *)
Definition sleeps_of (tr : trace) : list Q := omap sleep_evt tr.

(** The attempt numbers of the GET requests, in order. *)
Definition gets_of (tr : trace) : list Z := omap http_evt tr.

(** What [_seed_everything seed] adds to the trace [tr]: the call, and
    the seeding of [random] alone when seeding the libraries raised. *)
Definition seeding_events (w : World) (tr : trace) (seed : Z) : trace :=
  EvSeedEverything seed ::
  match w_seed_all w (tr ++ [EvSeedEverything seed])%list seed with
  | Ok _ => []
  | Raise _ => [EvRandomSeed seed]
  end.

(** The arguments of the calls into the generator, in order. *)
Definition generate_args (tr : trace) : list gen_args := omap generate_evt tr.

Definition generate_calls (tr : trace) : nat := length (generate_args tr).

(** The events the transfer layer and the generation wrapper perform. *)
Definition pipeline_event (e : effect) : Prop :=
  match e with
  | EvMakedirs _ | EvHttpGet _ _ | EvSleep _ | EvWriteFile _ | EvCustomInit
  | EvAudioPrepare _ | EvBuildPipeline _ | EvGenerate _ | EvSaveVideo _ => True
  | EvLog level event => level = "WARN" ∧ event = "oom_retry"
  | _ => False
  end.

(** The events of running one item: those of the pipeline, progress
    updates, log lines, and the delivery of the artifact. *)
Definition item_event (e : effect) : Prop :=
  match e with
  | EvSeedEverything _ | EvRandomSeed _ | EvStatusQuery _ | EvUiProgress _ _ => False
  | _ => True
  end.

(** The events of delivering the artifact. *)
Definition upload_event (e : effect) : Prop :=
  match e with
  | EvUpload _ _ | EvReadFile _ => True
  | _ => False
  end.

(** The events of one download attempt after its GET. *)
Definition after_get (e : effect) : Prop :=
  match e with
  | EvMakedirs _ | EvWriteFile _ => True
  | _ => False
  end.

(** The stages a successful item announces, with their percentages. *)
Definition success_stages : list (string * Z) :=
  [("validated", 2); ("models_loading", 15); ("models_ready", 18);
   ("preprocessing_done", 19); ("generation_start", 20); ("postprocess_mux", 90);
   ("uploading_artifacts", 92); ("completed", 100)].

(** [s'] is [s] with events satisfying [P] appended to the trace; the
    item's locals are untouched. *)
Definition appended (P : effect -> Prop) (s s' : St) : Prop :=
  ∃ suf, s' = mk_st (st_trace s ++ suf) (st_checkpoints s) (st_timings s) ∧ Forall P suf.

(** The trace of [s'] is that of [s] with events satisfying [P]
    appended. *)
Definition extended (P : effect -> Prop) (s s' : St) : Prop :=
  ∃ suf, st_trace s' = (st_trace s ++ suf)%list ∧ Forall P suf.

(** Every run of [m] relates the state before to the state after. *)
Definition steps (R : St -> St -> Prop) {A} (m : Py A) : Prop :=
  ∀ s, R s (m s).2.

(** Percentages that never decrease. *)
Fixpoint non_decreasing (l : list Z) : Prop :=
  match l with
  | a :: (b :: _) as r => a <= b ∧ non_decreasing r
  | _ => True
  end.

End Obs.

(** ** Concrete environments and requests, for evaluating the model *)

Module Scenario.
Import Validator Storage Pipeline Handler Obs.

Definition env_ok : Env :=
  mk_env (Some "/models/ckpt") (Some "/models/infinitetalk") (Some "/models/wav2vec")
         None None.

Definition env_no_wav2vec : Env :=
  mk_env (Some "/models/ckpt") (Some "/models/infinitetalk") None None None.

Definition env_no_models : Env :=
  mk_env None None (Some "/models/wav2vec") None None.

(** [int] on a text of decimal digits with an optional sign. *)
Definition int_of_digits (s : string) : result Z :=
  match NilZero.int_of_string s with
  | Some i => Ok (Z.of_int i)
  | None => Raise (mk_exn ValueError "invalid literal for int() with base 10")
  end.

(** A world whose local references exist, whose directories can be
    created, whose transfers succeed, and whose remote fetches and
    generator calls answer as given. *)
Definition world (env : Env) (defaults : dict) (local_refs : list string)
    (http : trace -> string -> http_outcome)
    (generate : trace -> gen_args -> result unit) : World :=
  {| w_env := env;
     w_defaults := defaults;
     w_uuid := "0000";
     w_iso_now := fun _ => "2025-01-01T00:00:00+00:00";
     w_int_of_str := int_of_digits;
     w_str := fun _ => "";
     w_makedirs := fun _ _ => Ok tt;
     w_seed_all := fun _ _ => Ok tt;
     w_path_exists := fun _ p => bool_decide (p ∈ local_refs);
     w_getsize := fun _ _ => Ok 1024;
     w_b64_valid := fun _ => false;
     w_b64_decode := fun _ => Ok 0;
     w_url_scheme := fun s => before ":" s;
     w_url_basename := fun _ => "";
     w_has_ext := fun _ => false;
     w_http_get := http;
     w_custom_init := fun _ => Ok tt;
     w_audio_prepare := fun _ _ => Ok tt;
     w_pipeline_ctor := fun _ _ => Ok tt;
     w_generate := generate;
     w_save_video := fun _ _ => Ok tt;
     w_upload := fun _ _ _ => Ok 200;
     w_read_b64 := fun _ _ => Ok "AAAA";
     w_format_exc := fun _ => "";
     w_generation_ms := fun _ => 1000;
     w_total_ms := fun _ => 1200 |}.

Definition no_http : trace -> string -> http_outcome :=
  fun _ _ => HttpRaise (mk_exn HTTPError "unreachable").

Definition gen_ok : trace -> gen_args -> result unit := fun _ _ => Ok tt.

Definition gen_raises (e : exn) : trace -> gen_args -> result unit := fun _ _ => Raise e.

Definition cuda_oom : exn := mk_exn OutOfMemoryError "CUDA out of memory.".

(** The generator runs out of device memory on its first [n] calls. *)
Definition gen_oom_first (n : nat) : trace -> gen_args -> result unit :=
  fun tr _ => if Nat.leb (generate_calls tr) n then Raise cuda_oom else Ok tt.

Definition payload : dict :=
  list_to_map [
    ("prompt", JStr "A person speaking to camera");
    ("cond_video", JStr "/data/face.png");
    ("cond_audio", JObj {["person1" := JStr "/data/voice.wav"]});
    ("size", JStr "infinitetalk-720");
    ("sample_steps", JInt 40)
  ].

Definition local_refs : list string := ["/data/face.png"; "/data/voice.wav"].

Definition job (inp : dict) : dict :=
  list_to_map [("id", JStr "job-1"); ("input", JObj inp)].

Definition defaults_doc : dict :=
  list_to_map [
    ("generation", JObj (list_to_map [("motion_frame", JInt 9); ("sample_steps", JInt 8)]));
    ("output", JObj {["store" := JStr "volume"]})
  ].

(** The same request with a seed. *)
Definition payload_seeded : dict := <["base_seed" := JInt 7]> payload.

(** A request that only sets [frame_num]. *)
Definition frame_num_81 : dict := {["frame_num" := JInt 81]}.

(** A batch of two items, the first without an id. *)
Definition batch_payload : dict :=
  {["batch" := JList [JObj payload; JObj (<["id" := JStr "second"]> payload)]]}.

(** The generator fails on its first call only. *)
Definition gen_fails_first : trace -> gen_args -> result unit :=
  fun tr _ =>
    if Nat.leb (generate_calls tr) 1
    then Raise (mk_exn ValueError "unexpected tensor shape")
    else Ok tt.

Definition remote_ref : string := "https://example.com/face.png".

(** A remote host that refuses the first two requests. *)
Definition http_third_time : trace -> string -> http_outcome :=
  fun tr _ =>
    if Nat.leb (length (gets_of tr)) 2
    then HttpRaise (mk_exn HTTPError "503 Server Error")
    else HttpBody (Some "image/png") 2048 "".

(** The same batch, with a seed on the envelope and on each item. *)
Definition batch_seeded : dict :=
  <["base_seed" := JInt 7]>
    {["batch" := JList [JObj payload_seeded;
                        JObj (<["id" := JStr "second"]> payload_seeded)]]}.

(** The last component of a path. *)
Fixpoint basename_from (s acc : string) : string :=
  match s with
  | EmptyString => acc
  | String c r =>
      if Ascii.eqb c "/" then basename_from r EmptyString
      else basename_from r (acc +:+ String c EmptyString)
  end.

(** A file system that refuses a name of more than 255 bytes, as
    Linux does. *)
Definition name_max_makedirs : trace -> string -> result unit :=
  fun _ p =>
    if Nat.ltb 255 (String.length (basename_from p EmptyString))
    then Raise (mk_exn OSError ("[Errno 36] File name too long: '" +:+ p +:+ "'"))
    else Ok tt.

(** The world [w] on a file system that answers [os.makedirs] with [f]. *)
Definition with_makedirs (w : World) (f : trace -> string -> result unit) : World :=
  {| w_env := w_env w;
     w_defaults := w_defaults w;
     w_uuid := w_uuid w;
     w_iso_now := w_iso_now w;
     w_int_of_str := w_int_of_str w;
     w_str := w_str w;
     w_makedirs := f;
     w_seed_all := w_seed_all w;
     w_path_exists := w_path_exists w;
     w_getsize := w_getsize w;
     w_b64_valid := w_b64_valid w;
     w_b64_decode := w_b64_decode w;
     w_url_scheme := w_url_scheme w;
     w_url_basename := w_url_basename w;
     w_has_ext := w_has_ext w;
     w_http_get := w_http_get w;
     w_custom_init := w_custom_init w;
     w_audio_prepare := w_audio_prepare w;
     w_pipeline_ctor := w_pipeline_ctor w;
     w_generate := w_generate w;
     w_save_video := w_save_video w;
     w_upload := w_upload w;
     w_read_b64 := w_read_b64 w;
     w_format_exc := w_format_exc w;
     w_generation_ms := w_generation_ms w;
     w_total_ms := w_total_ms w |}.

(** An item id of 256 letters, which the schema accepts. *)
Definition long_id : string := string_of_list_ascii (repeat "a"%char 256).

(** A batch of two items, the second with the long id. *)
Definition batch_long_id : dict :=
  {["batch" := JList [JObj payload; JObj (<["id" := JStr long_id]> payload)]]}.

(** The result of a single job, and the error envelope of an item. *)
Definition no_error : ErrorOutput :=
  mk_ErrorOutput JNull "" (mk_ErrorDetails "" "" false None None None) "" ∅ [].

Definition single_result (o : result RunOutput * St) : JobResult :=
  match o.1 with
  | Ok (Single r) => r
  | _ => Error no_error
  end.

Definition item_error (o : result JobResult * St) : ErrorOutput :=
  match o.1 with
  | Ok (Error out) => out
  | _ => no_error
  end.

Definition normalized_of (r : result dict) : dict :=
  match r with
  | Ok d => d
  | Raise _ => ∅
  end.

(** A job that stays in progress, observed by a clock that advances
    thirty seconds with every effect. *)
Definition busy_client : Ui.Client :=
  Ui.mk_client
    (fun _ _ => Ok (JObj {["status" := JStr "IN_PROGRESS"]}))
    (fun tr => inject_Z (30 * Z.of_nat (length tr)))
    (fun _ => "{}")
    int_of_digits
    (fun _ => "")
    Ui.upper.

(** The same job, observed by a clock that was set back thirty
    seconds after polling began. *)
Definition rewound_client : Ui.Client :=
  Ui.mk_client
    (fun _ _ => Ok (JObj {["status" := JStr "IN_PROGRESS"]}))
    (fun tr => if Nat.eqb (length tr) 0 then 100%Q else 70%Q)
    (fun _ => "{}")
    int_of_digits
    (fun _ => "")
    Ui.upper.

End Scenario.

(** ** The specification's wording, for comparison with the code *)

Module Spec.

(** The ten stage names of the state machine of section 4.4. *)
Definition stage_names : list string :=
  ["RECEIVED"; "VALIDATED"; "MODELS_LOADING"; "MODELS_READY"; "PREPROCESSING_DONE";
   "GENERATION_START"; "GENERATION_DONE"; "POSTPROCESS_MUX"; "UPLOADING_ARTIFACTS";
   "COMPLETED"].

(** The mapping policy of section 4.3: an out-of-memory condition, then
    the mux tool, then the audio-embedding path, then anything else. *)
Definition classify (e : exn) : string :=
  if (is_MemoryError (exn_class e) || is_OutOfMemoryError (exn_class e))%bool then "E_OOM"
  else if contains "ffmpeg" (lower (exn_msg e)) then "E_FFMPEG"
  else if (contains "WAV2VEC_DIR" (exn_msg e) ||
           contains "audio embedding" (lower (exn_msg e)))%bool then "E_AUDIO_EMBEDDING"
  else "E_GENERATION_RUNTIME".

End Spec.

(** * Properties *)

Open Scope list_scope.

(** ** Validation and normalization *)

Module ValidatorFacts.
Import Validator.

Lemma bind_ok {A B} (m : result A) (f : A -> result B) (b : B) :
  m ≫= f = Ok b ↔ ∃ a, m = Ok a ∧ f a = Ok b.
Proof.
  destruct m as [a|e]; simpl; split.
  - intros H. exists a. done.
  - intros (a' & Ha & Hf). by inversion Ha.
  - discriminate.
  - intros (a' & Ha & _). discriminate.
Qed.

Lemma is_ok_bind {A B} (m : result A) (f : A -> result B) :
  is_ok (m ≫= f) = true ↔ ∃ a, m = Ok a ∧ is_ok (f a) = true.
Proof.
  destruct m as [a|e]; simpl; split.
  - intros H. exists a. done.
  - intros (a' & Ha & Hf). by inversion Ha.
  - discriminate.
  - intros (a' & Ha & _). discriminate.
Qed.

Lemma validate_frame_num_ok (v : Z) :
  validate_frame_num_4n_plus_1 v = Ok v ↔ v > 0 ∧ (v - 1) mod 4 = 0.
Proof.
  unfold validate_frame_num_4n_plus_1.
  destruct (v <=? 0) eqn:Hle; simpl.
  - apply Z.leb_le in Hle. split; [discriminate | lia].
  - apply Z.leb_gt in Hle.
    destruct ((v - 1) mod 4 =? 0) eqn:Hm; simpl.
    + apply Z.eqb_eq in Hm. split; [intros _; lia | done].
    + apply Z.eqb_neq in Hm. split; [discriminate | lia].
Qed.

Lemma validate_frame_num_is_ok (v : Z) :
  is_ok (validate_frame_num_4n_plus_1 v) = true ↔ v > 0 ∧ (v - 1) mod 4 = 0.
Proof.
  rewrite <- validate_frame_num_ok. unfold validate_frame_num_4n_plus_1.
  destruct ((v <=? 0) || negb ((v - 1) mod 4 =? 0))%bool; simpl; split; congruence.
Qed.

Lemma field_frame_num_supplied co (d : dict) (x : json) (n : Z) :
  d !! "frame_num" = Some x → as_int co x = Some n →
  field_frame_num co d =
    match validate_frame_num_4n_plus_1 n with
    | Ok v => Ok v
    | Raise e => invalid "frame_num" (exn_msg e)
    end.
Proof.
  intros Hx Hn. unfold field_frame_num, optional_validated. rewrite Hx, Hn. done.
Qed.

Lemma field_frame_num_absent co (d : dict) :
  d !! "frame_num" = None → field_frame_num co d = Ok 81.
Proof. intros H. unfold field_frame_num, optional_validated. by rewrite H. Qed.

(* deleting frame_num leaves every other field as it is *)
Lemma optional_delete {A} (d : dict) k k' (parse : json -> option A) dflt :
  k ≠ k' → optional (delete k d) k' parse dflt = optional d k' parse dflt.
Proof. intros H. unfold optional. by rewrite lookup_delete_ne. Qed.

Lemma required_delete {A} (d : dict) k k' (parse : json -> option A) :
  k ≠ k' → required (delete k d) k' parse = required d k' parse.
Proof. intros H. unfold required. by rewrite lookup_delete_ne. Qed.

Lemma optional_validated_delete {A} (d : dict) k k' (parse : json -> option A) dflt v :
  k ≠ k' → optional_validated (delete k d) k' parse dflt v = optional_validated d k' parse dflt v.
Proof. intros H. unfold optional_validated. by rewrite lookup_delete_ne. Qed.

Lemma GenFields_parse_frame_num co (d : dict) (x : json) (n : Z) :
  d !! "frame_num" = Some x → as_int co x = Some n →
  match GenFields_parse co d with
  | Ok g => (n > 0 ∧ (n - 1) mod 4 = 0) ∧
            ∃ g', GenFields_parse co (delete "frame_num" d) = Ok g' ∧
                  quant g = quant g' ∧ quant_dir g = quant_dir g'
  | Raise _ => ¬ (n > 0 ∧ (n - 1) mod 4 = 0) ∨
               is_ok (GenFields_parse co (delete "frame_num" d)) = false
  end.
Proof.
  intros Hx Hn. unfold GenFields_parse.
  rewrite (field_frame_num_supplied co d x n Hx Hn).
  rewrite (field_frame_num_absent co (delete "frame_num" d)) by apply lookup_delete_eq.
  rewrite !optional_delete by done.
  pose proof (validate_frame_num_ok n) as Hv.
  destruct (validate_frame_num_4n_plus_1 n) as [v|e] eqn:Hval.
  - assert (Hc : n > 0 ∧ (n - 1) mod 4 = 0).
    { apply Hv. unfold validate_frame_num_4n_plus_1 in *.
      destruct ((n <=? 0) || negb ((n - 1) mod 4 =? 0))%bool; congruence. }
    repeat match goal with
    | |- context [mbind _ ?m] =>
        lazymatch m with
        | optional _ _ _ _ => destruct m; simpl; [| by right]
        | Ok _ => simpl
        end
    end.
    split; [done|]. eexists. split; [reflexivity|]. done.
  - assert (Hc : ¬ (n > 0 ∧ (n - 1) mod 4 = 0)).
    { intros H. apply Hv in H. discriminate. }
    repeat match goal with
    | |- context [mbind _ ?m] =>
        lazymatch m with
        | optional _ _ _ _ => destruct m; simpl; [| by left]
        end
    end.
    by left.
Qed.

Lemma validate_audio_refs_ext ca tts aty (g g' : GenFields) :
  quant g = quant g' → quant_dir g = quant_dir g' →
  validate_audio_refs ca tts aty g = validate_audio_refs ca tts aty g'.
Proof. intros H1 H2. unfold validate_audio_refs. by rewrite H1, H2. Qed.

Ltac step_fields d :=
  repeat match goal with
  | |- context [mbind _ ?m] =>
      lazymatch m with
      | optional d _ _ _ => destruct m; simpl; [| by (split; [discriminate | intros [_ ?]; discriminate])]
      | required d _ _ => destruct m; simpl; [| by (split; [discriminate | intros [_ ?]; discriminate])]
      | optional_validated d _ _ _ _ => destruct m; simpl; [| by (split; [discriminate | intros [_ ?]; discriminate])]
      end
  end.

Lemma SingleInput_frame_num co (d : dict) (x : json) (n : Z) :
  d !! "frame_num" = Some x → as_int co x = Some n →
  is_ok (SingleInput_model_validate co d) = true ↔
    (n > 0 ∧ (n - 1) mod 4 = 0) ∧
    is_ok (SingleInput_model_validate co (delete "frame_num" d)) = true.
Proof.
  intros Hx Hn. unfold SingleInput_model_validate.
  rewrite !required_delete, !optional_delete, !optional_validated_delete by done.
  step_fields d.
  pose proof (GenFields_parse_frame_num co d x n Hx Hn) as Hg.
  destruct (GenFields_parse co d) as [g|e]; simpl.
  - destruct Hg as [Hc (g' & -> & Hq & Hqd)]. simpl.
    step_fields d.
    rewrite (validate_audio_refs_ext _ _ _ g g' Hq Hqd).
    destruct (model_validated _); simpl; tauto.
  - destruct Hg as [Hc | Hf].
    + split; [discriminate | tauto].
    + destruct (GenFields_parse co (delete "frame_num" d)); [discriminate|]. simpl.
      split; [discriminate | intros [_ ?]; discriminate].
Qed.

Lemma BatchInput_frame_num co (d : dict) (x : json) (n : Z) :
  d !! "frame_num" = Some x → as_int co x = Some n →
  is_ok (BatchInput_model_validate co (JObj d)) = true ↔
    (n > 0 ∧ (n - 1) mod 4 = 0) ∧
    is_ok (BatchInput_model_validate co (JObj (delete "frame_num" d))) = true.
Proof.
  intros Hx Hn. unfold BatchInput_model_validate.
  rewrite !required_delete, !optional_delete by done.
  step_fields d.
  pose proof (GenFields_parse_frame_num co d x n Hx Hn) as Hg.
  destruct (GenFields_parse co d) as [g|e]; simpl.
  - destruct Hg as [Hc (g' & -> & Hq & Hqd)]. simpl.
    rewrite (validate_audio_refs_ext _ _ _ g g' Hq Hqd).
    destruct (model_validated _); simpl; tauto.
  - destruct Hg as [Hc | Hf].
    + split; [discriminate | tauto].
    + destruct (GenFields_parse co (delete "frame_num" d)); [discriminate|]. simpl.
      split; [discriminate | intros [_ ?]; discriminate].
Qed.

(** C2. For every payload that supplies [frame_num] with a value
    coerced to the integer [n]: the field is accepted if and only if
    [n > 0] and [(n - 1) mod 4 = 0], and either input model accepts the
    payload exactly when that holds and it accepts the payload without
    the field.  81 is accepted; 80, 0 and -5 are rejected. *)
Theorem frame_num_accepted_iff co (d : dict) (x : json) (n : Z) :
  d !! "frame_num" = Some x → as_int co x = Some n →
  (is_ok (field_frame_num co d) = true ↔ n > 0 ∧ (n - 1) mod 4 = 0) ∧
  (is_ok (SingleInput_model_validate co d) = true ↔
     (n > 0 ∧ (n - 1) mod 4 = 0) ∧
     is_ok (SingleInput_model_validate co (delete "frame_num" d)) = true) ∧
  (is_ok (BatchInput_model_validate co (JObj d)) = true ↔
     (n > 0 ∧ (n - 1) mod 4 = 0) ∧
     is_ok (BatchInput_model_validate co (JObj (delete "frame_num" d))) = true) ∧
  is_ok (validate_frame_num_4n_plus_1 81) = true ∧
  is_ok (validate_frame_num_4n_plus_1 80) = false ∧
  is_ok (validate_frame_num_4n_plus_1 0) = false ∧
  is_ok (validate_frame_num_4n_plus_1 (-5)) = false.
Proof.
  intros Hx Hn. split; [|split; [|split]].
  - rewrite (field_frame_num_supplied co d x n Hx Hn).
    rewrite <- validate_frame_num_is_ok.
    by destruct (validate_frame_num_4n_plus_1 n).
  - by apply SingleInput_frame_num with x.
  - by apply BatchInput_frame_num with x.
  - repeat split; reflexivity.
Qed.

Lemma apply_defaults_lookup (single defaults norm : dict) :
  apply_defaults_to_single single defaults = Ok norm →
  ∀ k, norm !! k =
    match single !! k with
    | Some v => Some v
    | None =>
        match generation_of defaults !! k with
        | Some v => Some v
        | None => if decide (k = "output_config") then defaults !! "output" else None
        end
    end.
Proof.
  unfold apply_defaults_to_single, generation_of. intros H k.
  destruct (defaults !! "generation") as [[| | | | | |g]|] eqn:Hg; simpl in H; try discriminate.
  - (* a generation sub-tree *)
    destruct ((single ∪ g) !! "output_config") as [oc|] eqn:Hoc.
    + inversion H; subst norm. rewrite lookup_union.
      destruct (single !! k) eqn:Hs, (g !! k) eqn:Hk; simpl; try done.
      case_decide; [subst k|done].
      rewrite lookup_union, Hs, Hk in Hoc. discriminate.
    + destruct (defaults !! "output") as [o|] eqn:Ho; inversion H; subst norm.
      * rewrite lookup_insert. case_decide.
        -- subst k. rewrite lookup_union in Hoc.
           destruct (single !! "output_config"), (g !! "output_config"); try discriminate.
           by rewrite decide_True.
        -- rewrite lookup_union.
           destruct (single !! k), (g !! k); simpl; try done.
           by rewrite decide_False.
      * rewrite lookup_union.
        destruct (single !! k), (g !! k); simpl; try done. by case_decide.
  - (* no generation sub-tree *)
    rewrite (right_id_L ∅ (∪)) in H. rewrite lookup_empty.
    destruct (single !! "output_config") as [oc|] eqn:Hoc.
    + inversion H; subst norm. destruct (single !! k) eqn:Hs; [done|].
      case_decide; [subst k; congruence | done].
    + destruct (defaults !! "output") as [o|] eqn:Ho; inversion H; subst norm.
      * rewrite lookup_insert. case_decide.
        -- subst k. rewrite Hoc. by rewrite decide_True.
        -- destruct (single !! k); [done|]. by rewrite decide_False.
      * destruct (single !! k); [done|]. by case_decide.
Qed.

Lemma apply_defaults_idem (single defaults norm : dict) :
  apply_defaults_to_single single defaults = Ok norm →
  apply_defaults_to_single norm defaults = Ok norm.
Proof.
  intros H. pose proof (apply_defaults_lookup _ _ _ H) as Hl.
  unfold apply_defaults_to_single, generation_of in *.
  destruct (defaults !! "generation") as [[| | | | | |g]|] eqn:Hg; simpl in *; try discriminate.
  - assert (Hu : norm ∪ g = norm).
    { apply map_eq. intros k. rewrite lookup_union, Hl.
      destruct (single !! k), (g !! k); simpl; try done.
      case_decide; by destruct (defaults !! "output"). }
    rewrite Hu. rewrite (Hl "output_config").
    destruct (single !! "output_config"); [done|].
    destruct (g !! "output_config"); [done|].
    rewrite decide_True by done. by destruct (defaults !! "output").
  - rewrite (right_id_L ∅ (∪)). rewrite (Hl "output_config").
    destruct (single !! "output_config"); [done|].
    rewrite lookup_empty, decide_True by done. by destruct (defaults !! "output").
Qed.

Lemma normalize_items_idem co (items norms : list json) (defaults : dict) :
  normalize_items co items defaults = Ok norms →
  validate_items co norms = Ok tt ∧
  normalize_items co norms defaults = Ok norms ∧
  length norms = length items.
Proof.
  revert norms. induction items as [|it rest IH]; intros norms H;
    cbn [normalize_items] in H.
  - by inversion H.
  - destruct it as [| | | | | |d]; cbn [mbind result_bind] in H; try discriminate.
    destruct (apply_defaults_to_single d defaults) as [norm|] eqn:Hn;
      cbn [mbind result_bind] in H; [|discriminate].
    destruct (BatchInput_model_validate co (JObj norm)) as [b|] eqn:Hb;
      cbn [mbind result_bind] in H; [|discriminate].
    destruct (normalize_items co rest defaults) as [ns|] eqn:Hr;
      cbn [mbind result_bind] in H; [|discriminate].
    inversion H; subst norms. destruct (IH ns eq_refl) as (Hv & Hi & Hlen).
    cbn [validate_items normalize_items]. rewrite Hb. cbn [mbind result_bind].
    rewrite Hv, (apply_defaults_idem _ _ _ Hn). cbn [mbind result_bind].
    rewrite Hb, Hi. cbn [mbind result_bind length]. by rewrite Hlen.
Qed.

Lemma envelope_ok co (env : dict) (e : EnvelopeInput) :
  EnvelopeInput_model_validate co env = Ok e →
  env !! "input" = Some (JObj (input e)) ∧
  optional env "policy" (nullable as_dict) None = Ok (policy e) ∧
  check_single_or_batch co (input e) = Ok tt.
Proof.
  unfold EnvelopeInput_model_validate, required. intros H.
  destruct (env !! "input") as [[| | | | | |p]|]; try discriminate.
  cbn [as_dict parsed mbind result_bind] in H.
  destruct (optional env "policy" (nullable as_dict) None) as [pol|]; [|discriminate].
  cbn [mbind result_bind] in H.
  destruct (check_single_or_batch co p) as [[]|] eqn:Hc; [|discriminate].
  cbn [model_validated mbind result_bind] in H. injection H as <-. done.
Qed.

Lemma envelope_rewrap co (env p : dict) (pol : option dict) :
  optional env "policy" (nullable as_dict) None = Ok pol →
  check_single_or_batch co p = Ok tt →
  EnvelopeInput_model_validate co (<["input" := JObj p]> env) = Ok (mk_EnvelopeInput p pol).
Proof.
  intros Hpol Hc. unfold EnvelopeInput_model_validate, required.
  rewrite lookup_insert_eq. cbn [as_dict parsed mbind result_bind].
  unfold optional in *. rewrite lookup_insert_ne by done. rewrite Hpol.
  cbn [mbind result_bind]. rewrite Hc. done.
Qed.

(** C10. For every accepted single (non-batch) envelope the normalized
    payload holds exactly the caller's fields, then the fields of the
    defaults' [generation] sub-tree, then [output_config] from the
    defaults' [output] when neither supplied one.  A field absent from
    both, such as [frame_num] or [base_seed], is absent from the output:
    schema defaults are not materialized. *)
Theorem normalized_single_fields co (env defaults p out : dict) :
  env !! "input" = Some (JObj p) → p !! "batch" = None →
  normalize_and_validate co env defaults = Ok out →
  (∀ k, out !! k =
     match p !! k with
     | Some v => Some v
     | None =>
         match generation_of defaults !! k with
         | Some v => Some v
         | None => if decide (k = "output_config") then defaults !! "output" else None
         end
     end) ∧
  (∀ k, k ∈ dom out ↔
        k ∈ dom p ∨ k ∈ dom (generation_of defaults) ∨
        (k = "output_config" ∧ is_Some (defaults !! "output"))) ∧
  (∀ k, p !! k = None → generation_of defaults !! k = None → k ≠ "output_config" →
        out !! k = None) ∧
  (p !! "frame_num" = None → generation_of defaults !! "frame_num" = None →
   out !! "frame_num" = None) ∧
  (p !! "base_seed" = None → generation_of defaults !! "base_seed" = None →
   out !! "base_seed" = None).
Proof.
  intros Hin Hb H. unfold normalize_and_validate in H.
  destruct (EnvelopeInput_model_validate co env) as [e|] eqn:He; [|discriminate].
  destruct (envelope_ok _ _ _ He) as (Hi & _ & _).
  assert (Hp : input e = p) by congruence. cbn [mbind result_bind] in H.
  rewrite Hp, Hb in H.
  destruct (apply_defaults_to_single p defaults) as [norm|] eqn:Hn; [|discriminate].
  cbn [mbind result_bind] in H.
  destruct (SingleInput_model_validate co norm); [|discriminate].
  cbn [mbind result_bind] in H. inversion H; subst out.
  pose proof (apply_defaults_lookup _ _ _ Hn) as Hl.
  assert (Hnone : ∀ k, p !! k = None → generation_of defaults !! k = None →
                       k ≠ "output_config" → norm !! k = None).
  { intros k H1 H2 H3. rewrite Hl, H1, H2. by rewrite decide_False. }
  split; [done|]. split; [|split; [done|split]].
  - intros k. rewrite !elem_of_dom, Hl.
    destruct (p !! k) eqn:E1; [by split; eauto|].
    destruct (generation_of defaults !! k) eqn:E2; [by split; eauto|].
    case_decide as Hk.
    + split; [by eauto|]. intros [[? ?]|[[? ?]|[_ ?]]]; done.
    + split; [by intros [? ?]|]. intros [[? ?]|[[? ?]|[? _]]]; done.
  - intros; by apply Hnone.
  - intros; by apply Hnone.
Qed.

(** C9, as amended. When the defaults' [generation] sub-tree has no
    [batch] key, a successful output of [normalize_and_validate], put
    back as the [input] of the envelope, is accepted again with the same
    defaults and is returned unchanged. *)
Theorem normalize_fixes_rewrapped_output co (env defaults out : dict) :
  generation_of defaults !! "batch" = None →
  normalize_and_validate co env defaults = Ok out →
  normalize_and_validate co (<["input" := JObj out]> env) defaults = Ok out.
Proof.
  intros Hgb H. unfold normalize_and_validate in H.
  destruct (EnvelopeInput_model_validate co env) as [e|] eqn:He; [|discriminate].
  destruct (envelope_ok _ _ _ He) as (Hi & Hpol & Hc).
  cbn [mbind result_bind] in H. destruct e as [p pol]. cbn [input policy] in *.
  destruct (p !! "batch") as [items|] eqn:Hb.
  - (* batch *)
    unfold check_single_or_batch in Hc. rewrite Hb in Hc.
    destruct items as [| | | | |[|it rest]|]; try discriminate.
    destruct (normalize_items co (it :: rest) defaults) as [norms|] eqn:Hn; [|discriminate].
    cbn [mbind result_bind] in H.
    destruct (normalize_items_idem _ _ _ _ Hn) as (Hv & Hidem & Hlen).
    destruct norms as [|n1 norms]; [discriminate|].
    assert (Hob : out !! "batch" = Some (JList (n1 :: norms))).
    { destruct (p !! "output_config"); inversion H; subst out.
      - rewrite lookup_insert_ne by done. apply lookup_singleton_eq.
      - apply lookup_singleton_eq. }
    assert (Hoo : out !! "output_config" = p !! "output_config").
    { destruct (p !! "output_config"); inversion H; subst out.
      - apply lookup_insert_eq.
      - by rewrite lookup_singleton_ne. }
    unfold normalize_and_validate.
    rewrite (envelope_rewrap co env out pol Hpol).
    + cbn [mbind result_bind input]. rewrite Hob, Hidem. cbn [mbind result_bind].
      rewrite Hoo. done.
    + unfold check_single_or_batch. by rewrite Hob.
  - (* single *)
    unfold check_single_or_batch in Hc. rewrite Hb in Hc.
    destruct (apply_defaults_to_single p defaults) as [norm|] eqn:Hn; [|discriminate].
    cbn [mbind result_bind] in H.
    destruct (SingleInput_model_validate co norm) as [si|] eqn:Hs; [|discriminate].
    cbn [mbind result_bind] in H. inversion H; subst out.
    assert (Hnb : norm !! "batch" = None).
    { rewrite (apply_defaults_lookup _ _ _ Hn), Hb, Hgb. by rewrite decide_False. }
    unfold normalize_and_validate.
    rewrite (envelope_rewrap co env norm pol Hpol).
    + cbn [mbind result_bind input]. rewrite Hnb, (apply_defaults_idem _ _ _ Hn).
      cbn [mbind result_bind]. by rewrite Hs.
    + unfold check_single_or_batch. by rewrite Hnb, Hs.
Qed.

End ValidatorFacts.

(** ** Reasoning about programs: frames and runs *)

Module MonadFacts.
Import Obs.

Section Steps.
Context (R : St → St → Prop) `{!Reflexive R, !Transitive R}.

Lemma steps_ret {A} (a : A) : steps R (mret a).
Proof. intros s. apply reflexivity. Qed.

Lemma steps_raise {A} (e : exn) : steps R (@raise A e).
Proof. intros s. apply reflexivity. Qed.

Lemma steps_lift {A} (r : result A) : steps R (lift r).
Proof. intros s. apply reflexivity. Qed.

Lemma steps_ask {A} (f : trace → A) : steps R (ask f).
Proof. intros s. apply reflexivity. Qed.

Lemma steps_get_checkpoints : steps R get_checkpoints.
Proof. intros s. apply reflexivity. Qed.

Lemma steps_get_timings : steps R get_timings.
Proof. intros s. apply reflexivity. Qed.

Lemma steps_bind {A B} (m : Py A) (f : A → Py B) :
  steps R m → (∀ a, steps R (f a)) → steps R (m ≫= f).
Proof.
  intros Hm Hf s. unfold mbind, Py_bind. specialize (Hm s).
  destruct (m s) as [[a|e] s1]; simpl in *; [|done].
  etrans; [exact Hm | apply Hf].
Qed.

Lemma steps_try_except {A} (m : Py A) (h : exn → Py A) :
  steps R m → (∀ e, steps R (h e)) → steps R (try_except m h).
Proof.
  intros Hm Hh s. unfold try_except. specialize (Hm s).
  destruct (m s) as [[a|e] s1]; simpl in *; [done|].
  etrans; [exact Hm | apply Hh].
Qed.

End Steps.

#[global] Instance appended_refl P : Reflexive (appended P).
Proof. intros [tr c t]. exists []. simpl. by rewrite app_nil_r. Qed.

#[global] Instance appended_trans P : Transitive (appended P).
Proof.
  intros s1 s2 s3 (u & -> & Hu) (v & -> & Hv). exists (u ++ v). simpl.
  rewrite app_assoc. split; [done|]. by apply Forall_app.
Qed.

#[global] Instance extended_refl P : Reflexive (extended P).
Proof. intros s. exists []. by rewrite app_nil_r. Qed.

#[global] Instance extended_trans P : Transitive (extended P).
Proof.
  intros s1 s2 s3 (u & Hu & HPu) (v & Hv & HPv). exists (u ++ v).
  rewrite Hv, Hu, app_assoc. split; [done|]. by apply Forall_app.
Qed.

Lemma appended_emit (P : effect → Prop) e : P e → steps (appended P) (emit e).
Proof. intros He s. exists [e]. split; [done|]. by apply Forall_singleton. Qed.

Lemma extended_emit (P : effect → Prop) e : P e → steps (extended P) (emit e).
Proof. intros He s. exists [e]. split; [done|]. by apply Forall_singleton. Qed.

Lemma appended_makedirs (P : effect → Prop) w p :
  P (EvMakedirs p) → steps (appended P) (makedirs w p).
Proof.
  intros He [tr c t]. exists [EvMakedirs p]. split; [reflexivity|by apply Forall_singleton].
Qed.

Lemma extended_makedirs (P : effect → Prop) w p :
  P (EvMakedirs p) → steps (extended P) (makedirs w p).
Proof.
  intros He [tr c t]. exists [EvMakedirs p]. split; [reflexivity|by apply Forall_singleton].
Qed.

Lemma extended_push_checkpoint P c : steps (extended P) (push_checkpoint c).
Proof. intros s. exists []. simpl. by rewrite app_nil_r. Qed.

Lemma extended_set_timing P k v : steps (extended P) (set_timing k v).
Proof. intros s. exists []. simpl. by rewrite app_nil_r. Qed.

Lemma extended_reset_locals P : steps (extended P) reset_locals.
Proof. intros s. exists []. simpl. by rewrite app_nil_r. Qed.

Lemma appended_extended (P Q : effect → Prop) {A} (m : Py A) :
  (∀ e, P e → Q e) → steps (appended P) m → steps (extended Q) m.
Proof.
  intros HPQ Hm s. destruct (Hm s) as (suf & Heq & Hsuf). exists suf.
  rewrite Heq. split; [done|]. eapply Forall_impl; eauto.
Qed.

Lemma appended_mono (P Q : effect → Prop) {A} (m : Py A) :
  (∀ e, P e → Q e) → steps (appended P) m → steps (appended Q) m.
Proof.
  intros HPQ Hm s. destruct (Hm s) as (suf & Heq & Hsuf). exists suf.
  split; [done|]. eapply Forall_impl; eauto.
Qed.

Lemma extended_mono (P Q : effect → Prop) {A} (m : Py A) :
  (∀ e, P e → Q e) → steps (extended P) m → steps (extended Q) m.
Proof.
  intros HPQ Hm s. destruct (Hm s) as (suf & Heq & Hsuf). exists suf.
  split; [done|]. eapply Forall_impl; eauto.
Qed.

(** *** Running a program on an explicit state *)

Lemma bind_run {A B} (m : Py A) (f : A → Py B) (s : St) :
  (m ≫= f) s =
    match m s with
    | (Ok a, s') => f a s'
    | (Raise e, s') => (Raise e, s')
    end.
Proof. reflexivity. Qed.

Lemma try_except_run {A} (m : Py A) (h : exn → Py A) (s : St) :
  try_except m h s =
    match m s with
    | (Ok a, s') => (Ok a, s')
    | (Raise e, s') => h e s'
    end.
Proof. reflexivity. Qed.

Lemma ret_run {A} (a : A) (s : St) : (mret a : Py A) s = (Ok a, s).
Proof. reflexivity. Qed.

Lemma raise_run {A} (e : exn) (s : St) : @raise A e s = (Raise e, s).
Proof. reflexivity. Qed.

Lemma lift_run {A} (r : result A) (s : St) : lift r s = (r, s).
Proof. reflexivity. Qed.

Lemma emit_run e tr c t : emit e (mk_st tr c t) = (Ok tt, mk_st (tr ++ [e]) c t).
Proof. reflexivity. Qed.

Lemma ask_run {A} (f : trace → A) tr c t : ask f (mk_st tr c t) = (Ok (f tr), mk_st tr c t).
Proof. reflexivity. Qed.

Lemma makedirs_run w p tr c t :
  makedirs w p (mk_st tr c t) =
    (w_makedirs w (tr ++ [EvMakedirs p]) p, mk_st (tr ++ [EvMakedirs p]) c t).
Proof. reflexivity. Qed.

Lemma get_checkpoints_run tr c t : get_checkpoints (mk_st tr c t) = (Ok c, mk_st tr c t).
Proof. reflexivity. Qed.

Lemma get_timings_run tr c t : get_timings (mk_st tr c t) = (Ok t, mk_st tr c t).
Proof. reflexivity. Qed.

Lemma push_checkpoint_run x tr c t :
  push_checkpoint x (mk_st tr c t) = (Ok tt, mk_st tr (c ++ [x]) t).
Proof. reflexivity. Qed.

Lemma set_timing_run k v tr c t :
  set_timing k v (mk_st tr c t) = (Ok tt, mk_st tr c (<[k := v]> t)).
Proof. reflexivity. Qed.

Lemma reset_locals_run tr c t : reset_locals (mk_st tr c t) = (Ok tt, mk_st tr [] ∅).
Proof. reflexivity. Qed.

(** One step of symbolic execution in a hypothesis: rewrite the
    innermost applied primitive, then contract the exposed redexes. *)
Ltac run_prim_in H :=
  lazymatch type of H with
  | context [@mbind Py _ _ _ ?f ?m ?s] => rewrite (bind_run m f s) in H
  | context [try_except ?m ?h ?s] => rewrite (try_except_run m h s) in H
  | context [@mret Py _ _ ?a ?s] => rewrite (ret_run a s) in H
  | context [@raise ?A ?e ?s] => rewrite (@raise_run A e s) in H
  | context [lift ?r ?s] => rewrite (lift_run r s) in H
  | context [makedirs ?w ?p (mk_st ?tr ?c ?t)] => rewrite (makedirs_run w p tr c t) in H
  | context [emit ?e (mk_st ?tr ?c ?t)] => rewrite (emit_run e tr c t) in H
  | context [ask ?f (mk_st ?tr ?c ?t)] => rewrite (ask_run f tr c t) in H
  | context [get_checkpoints (mk_st ?tr ?c ?t)] => rewrite (get_checkpoints_run tr c t) in H
  | context [get_timings (mk_st ?tr ?c ?t)] => rewrite (get_timings_run tr c t) in H
  | context [push_checkpoint ?x (mk_st ?tr ?c ?t)] =>
      rewrite (push_checkpoint_run x tr c t) in H
  | context [set_timing ?k ?v (mk_st ?tr ?c ?t)] => rewrite (set_timing_run k v tr c t) in H
  | context [reset_locals (mk_st ?tr ?c ?t)] => rewrite (reset_locals_run tr c t) in H
  end;
  cbv beta iota in H.

Ltac run_prim :=
  lazymatch goal with
  | |- context [@mbind Py _ _ _ ?f ?m ?s] => rewrite (bind_run m f s)
  | |- context [try_except ?m ?h ?s] => rewrite (try_except_run m h s)
  | |- context [@mret Py _ _ ?a ?s] => rewrite (ret_run a s)
  | |- context [@raise ?A ?e ?s] => rewrite (@raise_run A e s)
  | |- context [lift ?r ?s] => rewrite (lift_run r s)
  | |- context [makedirs ?w ?p (mk_st ?tr ?c ?t)] => rewrite (makedirs_run w p tr c t)
  | |- context [emit ?e (mk_st ?tr ?c ?t)] => rewrite (emit_run e tr c t)
  | |- context [ask ?f (mk_st ?tr ?c ?t)] => rewrite (ask_run f tr c t)
  | |- context [get_checkpoints (mk_st ?tr ?c ?t)] => rewrite (get_checkpoints_run tr c t)
  | |- context [get_timings (mk_st ?tr ?c ?t)] => rewrite (get_timings_run tr c t)
  | |- context [push_checkpoint ?x (mk_st ?tr ?c ?t)] =>
      rewrite (push_checkpoint_run x tr c t)
  | |- context [set_timing ?k ?v (mk_st ?tr ?c ?t)] => rewrite (set_timing_run k v tr c t)
  | |- context [reset_locals (mk_st ?tr ?c ?t)] => rewrite (reset_locals_run tr c t)
  end;
  cbv beta iota.

(** Structural descent through a monadic program, by the shape of the
    goal only. *)
Ltac steps_step known :=
  lazymatch goal with
  | |- steps _ (mret _) => apply steps_ret; tc_solve
  | |- steps _ (raise _) => apply steps_raise; tc_solve
  | |- steps _ (lift _) => apply steps_lift; tc_solve
  | |- steps _ (ask _) => apply steps_ask; tc_solve
  | |- steps _ get_checkpoints => apply steps_get_checkpoints; tc_solve
  | |- steps _ get_timings => apply steps_get_timings; tc_solve
  | |- steps (appended _) (emit _) => apply appended_emit; by simpl
  | |- steps (extended _) (emit _) => apply extended_emit; by simpl
  | |- steps (appended _) (makedirs _ _) => apply appended_makedirs; by simpl
  | |- steps (extended _) (makedirs _ _) => apply extended_makedirs; by simpl
  | |- steps (extended _) (push_checkpoint _) => apply extended_push_checkpoint
  | |- steps (extended _) (set_timing _ _) => apply extended_set_timing
  | |- steps (extended _) reset_locals => apply extended_reset_locals
  | |- steps _ (_ ≫= _) => apply steps_bind; [tc_solve | | intros ?; cbv beta]
  | |- steps _ (try_except _ _) => apply steps_try_except; [tc_solve | | intros ?; cbv beta]
  | |- steps _ (match ?x with _ => _ end) => destruct x
  | |- steps _ (let _ := _ in _) => cbv zeta
  | |- steps _ _ => known
  end.

Ltac steps_auto known := repeat (steps_step known).

End MonadFacts.

(** ** The events of the transfer layer and the generation wrapper *)

Module PipelineFacts.
Import Storage Pipeline Obs MonadFacts.

Lemma save_temp_appended w workdir filename :
  steps (appended pipeline_event) (save_temp w workdir filename).
Proof. unfold save_temp. steps_auto fail. Qed.

Lemma decode_base64_appended w data workdir name :
  steps (appended pipeline_event) (decode_base64_to_file w data workdir name).
Proof.
  unfold decode_base64_to_file.
  steps_auto ltac:(idtac; lazymatch goal with
                   | |- steps _ (save_temp _ _ _) => apply save_temp_appended
                   end).
Qed.

Lemma attempt_once_appended w url workdir filename checksum attempt :
  steps (appended pipeline_event) (attempt_once w url workdir filename checksum attempt).
Proof. unfold attempt_once. steps_auto fail. Qed.

Lemma retry_loop_appended w url workdir filename checksum attempts last :
  steps (appended pipeline_event) (retry_loop w url workdir filename checksum attempts last).
Proof.
  revert last. induction attempts as [|a rest IH]; intros last; simpl.
  - steps_auto fail.
  - steps_auto ltac:(idtac; lazymatch goal with
                     | |- steps _ (attempt_once _ _ _ _ _ _) => apply attempt_once_appended
                     | |- steps _ (retry_loop _ _ _ _ _ _ _) => apply IH
                     end).
Qed.

Lemma download_from_url_appended w ref workdir filename checksum :
  steps (appended pipeline_event) (download_from_url w ref workdir filename checksum).
Proof.
  unfold download_from_url.
  steps_auto ltac:(idtac; lazymatch goal with
                   | |- steps _ (decode_base64_to_file _ _ _ _) => apply decode_base64_appended
                   | |- steps _ (retry_loop _ _ _ _ _ _ _) => apply retry_loop_appended
                   end).
Qed.

Lemma _prepare_inputs_appended w params workdir :
  steps (appended pipeline_event) (_prepare_inputs w params workdir).
Proof.
  unfold _prepare_inputs.
  steps_auto ltac:(idtac; lazymatch goal with
                   | |- steps _ (download_from_url _ _ _ _ _) => apply download_from_url_appended
                   end).
Qed.

Lemma _build_pipeline_appended w params :
  steps (appended pipeline_event) (_build_pipeline w params).
Proof. unfold _build_pipeline. steps_auto fail. Qed.

Lemma _run_generate_appended w input_data params :
  steps (appended pipeline_event) (_run_generate w input_data params).
Proof. unfold _run_generate. steps_auto fail. Qed.

Lemma run_inference_appended w params workdir :
  steps (appended pipeline_event) (run_inference w params workdir).
Proof.
  unfold run_inference.
  steps_auto ltac:(idtac; lazymatch goal with
                   | |- steps _ (_prepare_inputs _ _ _) => apply _prepare_inputs_appended
                   | |- steps _ (_build_pipeline _ _) => apply _build_pipeline_appended
                   | |- steps _ (_run_generate _ _ _) => apply _run_generate_appended
                   end).
Qed.

End PipelineFacts.

(** ** The out-of-memory retry of [run_inference] *)

Module RetryFacts.
Import Storage Pipeline Obs MonadFacts.

(** Events other than a call of the generator. *)
Local Abbreviation quiet := (fun e : effect => generate_evt e = None).

Lemma save_temp_quiet w workdir filename :
  steps (appended quiet) (save_temp w workdir filename).
Proof. unfold save_temp. steps_auto fail. Qed.

Lemma decode_base64_quiet w data workdir name :
  steps (appended quiet) (decode_base64_to_file w data workdir name).
Proof.
  unfold decode_base64_to_file.
  steps_auto ltac:(idtac; lazymatch goal with
                   | |- steps _ (save_temp _ _ _) => apply save_temp_quiet
                   end).
Qed.

Lemma attempt_once_quiet w url workdir filename checksum attempt :
  steps (appended quiet) (attempt_once w url workdir filename checksum attempt).
Proof. unfold attempt_once. steps_auto fail. Qed.

Lemma retry_loop_quiet w url workdir filename checksum attempts last :
  steps (appended quiet) (retry_loop w url workdir filename checksum attempts last).
Proof.
  revert last. induction attempts as [|a rest IH]; intros last; simpl.
  - steps_auto fail.
  - steps_auto ltac:(idtac; lazymatch goal with
                     | |- steps _ (attempt_once _ _ _ _ _ _) => apply attempt_once_quiet
                     | |- steps _ (retry_loop _ _ _ _ _ _ _) => apply IH
                     end).
Qed.

Lemma download_from_url_quiet w ref workdir filename checksum :
  steps (appended quiet) (download_from_url w ref workdir filename checksum).
Proof.
  unfold download_from_url.
  steps_auto ltac:(idtac; lazymatch goal with
                   | |- steps _ (decode_base64_to_file _ _ _ _) => apply decode_base64_quiet
                   | |- steps _ (retry_loop _ _ _ _ _ _ _) => apply retry_loop_quiet
                   end).
Qed.

Lemma _prepare_inputs_quiet w params workdir :
  steps (appended quiet) (_prepare_inputs w params workdir).
Proof.
  unfold _prepare_inputs.
  steps_auto ltac:(idtac; lazymatch goal with
                   | |- steps _ (download_from_url _ _ _ _ _) => apply download_from_url_quiet
                   end).
Qed.

Lemma _build_pipeline_quiet w params :
  steps (appended quiet) (_build_pipeline w params).
Proof. unfold _build_pipeline. steps_auto fail. Qed.

Lemma generate_args_app (a b : trace) :
  generate_args (a ++ b) = generate_args a ++ generate_args b.
Proof. apply omap_app. Qed.

Lemma generate_args_quiet (suf : trace) : Forall quiet suf → generate_args suf = [].
Proof.
  induction 1 as [|e l He _ IH]; [done|].
  unfold generate_args in *. simpl. by rewrite He.
Qed.

(** One call of the generator: the arguments are read from [params]
    and the collaborator answers on the trace that ends with the call. *)
Lemma _run_generate_run w (input_data params : dict) tr c t :
  match getitem params "size" with
  | Raise e =>
      _run_generate w input_data params (mk_st tr c t) = (Raise e, mk_st tr c t)
  | Ok size =>
      ∃ a,
        _run_generate w input_data params (mk_st tr c t) =
          (w_generate w (tr ++ [EvGenerate a]) a, mk_st (tr ++ [EvGenerate a]) c t) ∧
        ga_input_data a = input_data ∧
        ga_size_buckget a = size ∧
        ga_shift a = (if eq_str size "infinitetalk-480" then 7 else 11) ∧
        ga_sampling_steps a = get_or params "sample_steps" (JInt 40)
  end.
Proof.
  unfold _run_generate. rewrite bind_run, lift_run.
  destruct (getitem params "size") as [size|e]; cbv beta iota zeta; [|reflexivity].
  eexists. split.
  - rewrite bind_run, emit_run. cbv beta iota.
    rewrite bind_run, ask_run. cbv beta iota. rewrite lift_run. reflexivity.
  - repeat split; reflexivity.
Qed.

Lemma reduced_spec w (params reduce : dict) :
  reduced w params = Ok reduce →
  ∃ n, py_int (w_int_of_str w) (get_or params "sample_steps" (JInt 40)) = Ok n ∧
       getitem reduce "size" = Ok (JStr "infinitetalk-480") ∧
       get_or reduce "sample_steps" (JInt 40) = JInt (Z.min 8 n).
Proof.
  unfold reduced. destruct (py_int _) as [n|e]; [|discriminate].
  cbn [mbind result_bind]. intros [= <-]. exists n. split; [done|]. split.
  - unfold getitem. rewrite lookup_insert_ne by done. by rewrite lookup_insert_eq.
  - unfold get_or. by rewrite lookup_insert_eq.
Qed.

Lemma retry_block w (input_data params : dict) tr c t :
  ∃ suf r,
    try_except (_run_generate w input_data params)
      (fun e =>
         if is_OutOfMemoryError (exn_class e) then
           reduce ← lift (reduced w params);
           _ ← emit (EvLog "WARN" "oom_retry");
           _ ← _build_pipeline w reduce;
           _run_generate w input_data reduce
         else raise e) (mk_st tr c t) = (r, mk_st (tr ++ suf) c t) ∧
    (r = Ok tt ∨ ∃ e, r = Raise e) ∧
    ((suf = [] ∧ ∃ e, r = Raise e) ∨
     ∃ a1 post,
       suf = EvGenerate a1 :: post ∧
       match w_generate w (tr ++ [EvGenerate a1]) a1 with
       | Ok _ => post = [] ∧ r = Ok tt
       | Raise e =>
           if is_OutOfMemoryError (exn_class e) then
             (generate_args post = [] ∧ ∃ e', r = Raise e') ∨
             ∃ mid a2 n,
               post = mid ++ [EvGenerate a2] ∧
               generate_args mid = [] ∧
               EvLog "WARN" "oom_retry" ∈ mid ∧
               py_int (w_int_of_str w) (get_or params "sample_steps" (JInt 40)) = Ok n ∧
               ga_input_data a2 = ga_input_data a1 ∧
               ga_size_buckget a2 = JStr "infinitetalk-480" ∧
               ga_shift a2 = 7 ∧
               ga_sampling_steps a2 = JInt (Z.min 8 n) ∧
               r = w_generate w (tr ++ EvGenerate a1 :: mid ++ [EvGenerate a2]) a2
           else r = Raise e ∧ post = []
       end).
Proof.
  rewrite try_except_run.
  pose proof (_run_generate_run w input_data params tr c t) as H1.
  destruct (getitem params "size") as [size|e0] eqn:Hg.
  2:{ rewrite H1. cbv beta iota.
      assert (Ho : is_OutOfMemoryError (exn_class e0) = false).
      { unfold getitem in Hg. destruct (params !! "size"); [discriminate|].
        by injection Hg as <-. }
      rewrite Ho, raise_run. exists [], (Raise e0). rewrite app_nil_r.
      split; [done|]. split; [right; eauto|]. left. eauto. }
  destruct H1 as (a1 & Hrun & Hin1 & _). rewrite Hrun.
  destruct (w_generate w (tr ++ [EvGenerate a1]) a1) as [[]|e] eqn:Hw1; cbv beta iota.
  { exists [EvGenerate a1], (Ok tt). split; [done|]. split; [by left|].
    right. exists a1, []. split; [done|]. by rewrite Hw1. }
  destruct (is_OutOfMemoryError (exn_class e)) eqn:Ho.
  2:{ rewrite raise_run. exists [EvGenerate a1], (Raise e). split; [done|].
      split; [right; eauto|]. right. exists a1, []. split; [done|].
      by rewrite Hw1, Ho. }
  rewrite bind_run, lift_run.
  destruct (reduced w params) as [reduce|e'] eqn:Hred; cbv beta iota.
  2:{ exists [EvGenerate a1], (Raise e'). split; [done|].
      split; [right; eauto|]. right. exists a1, []. split; [done|].
      rewrite Hw1, Ho. left. eauto. }
  destruct (reduced_spec _ _ _ Hred) as (n & Hn & Hsize & Hsteps).
  rewrite bind_run, emit_run. cbv beta iota. rewrite bind_run.
  match goal with
  | |- context [_build_pipeline w reduce ?S] =>
      destruct (_build_pipeline_quiet w reduce S) as (suf2 & Heq & HP);
      destruct (_build_pipeline w reduce S) as [[[]|e2] S2];
      cbn [snd st_trace st_checkpoints st_timings] in Heq; subst S2; cbv beta iota
  end.
  2:{ exists (EvGenerate a1 :: EvLog "WARN" "oom_retry" :: suf2), (Raise e2).
      split; [by rewrite <- !app_assoc|]. split; [right; eauto|].
      right. exists a1, (EvLog "WARN" "oom_retry" :: suf2). split; [done|].
      rewrite Hw1, Ho. left. split; [|eauto].
      change (EvLog "WARN" "oom_retry" :: suf2) with ([EvLog "WARN" "oom_retry"] ++ suf2).
      by rewrite generate_args_app, (generate_args_quiet _ HP). }
  match goal with
  | |- context [_run_generate w input_data reduce (mk_st ?TR c t)] =>
      pose proof (_run_generate_run w input_data reduce TR c t) as H2
  end.
  rewrite Hsize in H2. destruct H2 as (a2 & Hrun2 & Hin2 & Hsz2 & Hsh2 & Hst2).
  rewrite Hrun2.
  exists (EvGenerate a1 :: (EvLog "WARN" "oom_retry" :: suf2) ++ [EvGenerate a2]).
  eexists. split.
  { f_equal. f_equal. by rewrite <- !app_assoc. }
  split.
  { match goal with |- context [w_generate w ?T a2] =>
      destruct (w_generate w T a2) as [[]|] end; [by left|right; eauto]. }
  right. exists a1, ((EvLog "WARN" "oom_retry" :: suf2) ++ [EvGenerate a2]).
  split; [done|]. rewrite Hw1, Ho. right.
  exists (EvLog "WARN" "oom_retry" :: suf2), a2, n.
  split; [done|]. split.
  { change (EvLog "WARN" "oom_retry" :: suf2) with ([EvLog "WARN" "oom_retry"] ++ suf2).
    by rewrite generate_args_app, (generate_args_quiet _ HP). }
  split; [apply list_elem_of_here|]. split; [exact Hn|].
  split; [by rewrite Hin1, Hin2|]. split; [exact Hsz2|]. split; [exact Hsh2|].
  split; [by rewrite Hst2, Hsteps|].
  f_equal. by rewrite <- !app_assoc.
Qed.


(** X1. [run_inference] calls the generator at most twice.  Either no
    call is made and it raises; or one call is made, and when that call
    raises something other than the device's out-of-memory error the
    error propagates at once; or two calls are made, the first raised
    the device's out-of-memory error, the retry was announced, and the
    second call has the same inputs with the 480p preset, shift 7 and
    [min 8 (int sample_steps)] sampling steps, its failure propagating
    at once. *)
Theorem generation_retries_once_on_oom w (params : dict) (workdir : string) s r s' :
  run_inference w params workdir s = (r, s') →
  ∃ suf,
    st_trace s' = st_trace s ++ suf ∧
    ((generate_args suf = [] ∧ ∃ e, r = Raise e) ∨
     (∃ pre a1 post,
        suf = pre ++ EvGenerate a1 :: post ∧ generate_args suf = [a1] ∧
        match w_generate w (st_trace s ++ pre ++ [EvGenerate a1]) a1 with
        | Ok _ => True
        | Raise e =>
            if is_OutOfMemoryError (exn_class e)
            then ∃ e', r = Raise e'
            else r = Raise e ∧ post = []
        end) ∨
     (∃ pre a1 mid a2 post e n,
        suf = pre ++ EvGenerate a1 :: mid ++ EvGenerate a2 :: post ∧
        generate_args suf = [a1; a2] ∧
        w_generate w (st_trace s ++ pre ++ [EvGenerate a1]) a1 = Raise e ∧
        is_OutOfMemoryError (exn_class e) = true ∧
        EvLog "WARN" "oom_retry" ∈ mid ∧
        py_int (w_int_of_str w) (get_or params "sample_steps" (JInt 40)) = Ok n ∧
        ga_input_data a2 = ga_input_data a1 ∧
        ga_size_buckget a2 = JStr "infinitetalk-480" ∧
        ga_shift a2 = 7 ∧
        ga_sampling_steps a2 = JInt (Z.min 8 n) ∧
        (∀ e2,
           w_generate w (st_trace s ++ pre ++ EvGenerate a1 :: mid ++ [EvGenerate a2]) a2 =
             Raise e2 →
           r = Raise e2 ∧ post = []))).
Proof.
  destruct s as [tr c t]. cbn [st_trace]. unfold run_inference.
  rewrite bind_run, makedirs_run.
  destruct (w_makedirs w (tr ++ [EvMakedirs workdir]) workdir) as [[]|e0]; cbv beta iota.
  2:{ intros [= <- <-]. eexists. cbn [st_trace]. split; [reflexivity|].
      left. split; [reflexivity | eauto]. }
  rewrite bind_run.
  match goal with
  | |- context [_prepare_inputs w params workdir ?S] =>
      destruct (_prepare_inputs_quiet w params workdir S) as (suf1 & Heq1 & HP1);
      destruct (_prepare_inputs w params workdir S) as [[[input_data meta]|e1] S1];
      cbn [snd st_trace st_checkpoints st_timings] in Heq1; subst S1; cbv beta iota
  end.
  2:{ intros [= <- <-]. eexists. cbn [st_trace]. split; [by rewrite <- app_assoc|].
      left. split; [|eauto]. by rewrite generate_args_app, (generate_args_quiet _ HP1). }
  rewrite bind_run.
  match goal with
  | |- context [_build_pipeline w params ?S] =>
      destruct (_build_pipeline_quiet w params S) as (suf2 & Heq2 & HP2);
      destruct (_build_pipeline w params S) as [[[]|e2] S2];
      cbn [snd st_trace st_checkpoints st_timings] in Heq2; subst S2; cbv beta iota
  end.
  2:{ intros [= <- <-]. eexists. cbn [st_trace]. split; [by rewrite <- !app_assoc|].
      left. split; [|eauto].
      by rewrite !generate_args_app, (generate_args_quiet _ HP1), (generate_args_quiet _ HP2). }
  assert (Hpre : generate_args (EvMakedirs workdir :: suf1 ++ suf2) = []).
  { change (EvMakedirs workdir :: suf1 ++ suf2) with ([EvMakedirs workdir] ++ suf1 ++ suf2).
    by rewrite !generate_args_app, (generate_args_quiet _ HP1), (generate_args_quiet _ HP2). }
  assert (Htr : (tr ++ [EvMakedirs workdir]) ++ suf1 ++ suf2 =
                tr ++ EvMakedirs workdir :: suf1 ++ suf2) by (by rewrite <- app_assoc).
  rewrite <- (app_assoc _ suf1 suf2), Htr. clear Htr.
  set (pre := EvMakedirs workdir :: suf1 ++ suf2) in *.
  rewrite bind_run.
  destruct (retry_block w input_data params (tr ++ pre) c t) as (sufg & rg & Hrun & Hrg & Hc).
  rewrite Hrun. clear Hrun.
  assert (Hcore : ∀ (post : trace) (r : result InferenceResult),
            generate_args post = [] →
            rg = Ok tt ∨ (post = [] ∧ ∃ e, rg = Raise e ∧ r = Raise e) →
            st_trace s' = ((tr ++ pre) ++ sufg) ++ post →
            ∃ suf, st_trace s' = tr ++ suf ∧
              ((generate_args suf = [] ∧ ∃ e, r = Raise e) ∨
               (∃ pre a1 post,
                  suf = pre ++ EvGenerate a1 :: post ∧ generate_args suf = [a1] ∧
                  match w_generate w (tr ++ pre ++ [EvGenerate a1]) a1 with
                  | Ok _ => True
                  | Raise e =>
                      if is_OutOfMemoryError (exn_class e)
                      then ∃ e', r = Raise e'
                      else r = Raise e ∧ post = []
                  end) ∨
               (∃ pre a1 mid a2 post e n,
                  suf = pre ++ EvGenerate a1 :: mid ++ EvGenerate a2 :: post ∧
                  generate_args suf = [a1; a2] ∧
                  w_generate w (tr ++ pre ++ [EvGenerate a1]) a1 = Raise e ∧
                  is_OutOfMemoryError (exn_class e) = true ∧
                  EvLog "WARN" "oom_retry" ∈ mid ∧
                  py_int (w_int_of_str w) (get_or params "sample_steps" (JInt 40)) = Ok n ∧
                  ga_input_data a2 = ga_input_data a1 ∧
                  ga_size_buckget a2 = JStr "infinitetalk-480" ∧
                  ga_shift a2 = 7 ∧
                  ga_sampling_steps a2 = JInt (Z.min 8 n) ∧
                  (∀ e2,
                     w_generate w (tr ++ pre ++ EvGenerate a1 :: mid ++ [EvGenerate a2]) a2 =
                       Raise e2 →
                     r = Raise e2 ∧ post = [])))).
  { intros post r0 Hpost Hr Htr. exists (pre ++ sufg ++ post).
    split; [by rewrite Htr, <- !app_assoc|]. clear Htr.
    destruct Hc as [[-> (e & ->)]|(a1 & postg & -> & Hm)].
    { destruct Hr as [|(-> & e' & [= <-] & ->)]; [discriminate|].
      left. split; [|eauto]. by rewrite generate_args_app, Hpre. }
    rewrite <- (app_assoc tr pre [EvGenerate a1]) in Hm.
    destruct (w_generate w (tr ++ pre ++ [EvGenerate a1]) a1) as [[]|e] eqn:Hw.
    { destruct Hm as [-> ->]. right. left. exists pre, a1, post.
      split; [done|]. split; [|by rewrite Hw].
      rewrite generate_args_app, Hpre. simpl.
      change (generate_args (EvGenerate a1 :: post)) with (a1 :: generate_args post).
      by rewrite Hpost. }
    destruct (is_OutOfMemoryError (exn_class e)) eqn:Ho.
    2:{ destruct Hm as [-> ->].
        destruct Hr as [|(-> & e' & [= <-] & ->)]; [discriminate|].
        right. left. exists pre, a1, []. split; [done|]. split.
        - by rewrite generate_args_app, Hpre.
        - by rewrite Hw, Ho. }
    destruct Hm as [(Hq & e' & ->)|(mid & a2 & n & -> & Hmid & Hlog & Hn & Hi & Hsz & Hsh & Hst & Hrg2)].
    { destruct Hr as [|(-> & e'' & [= <-] & ->)]; [discriminate|].
      right. left. exists pre, a1, postg. split; [by rewrite app_nil_r|]. split.
      - rewrite app_nil_r, generate_args_app, Hpre. simpl.
        change (generate_args (EvGenerate a1 :: postg)) with (a1 :: generate_args postg).
        by rewrite Hq.
      - rewrite Hw, Ho. eauto. }
    right. right. exists pre, a1, mid, a2, post, e, n.
    split; [cbn [app]; by rewrite <- app_assoc|]. split.
    { rewrite generate_args_app, Hpre. simpl.
      change (generate_args ((EvGenerate a1 :: mid ++ [EvGenerate a2]) ++ post))
        with (a1 :: generate_args ((mid ++ [EvGenerate a2]) ++ post)).
      rewrite !generate_args_app, Hmid, Hpost. reflexivity. }
    split; [done|]. split; [done|]. split; [done|]. split; [done|].
    split; [done|]. split; [done|]. split; [done|]. split; [done|].
    rewrite <- (app_assoc tr pre) in Hrg2.
    intros e2 He2. rewrite He2 in Hrg2. subst rg.
    destruct Hr as [|(-> & e'' & [= <-] & ->)]; [discriminate|]. done. }
  destruct Hrg as [->|[eg ->]]; cbv beta iota.
  - match goal with
    | |- ?m ?S = _ → _ =>
        assert (Ht : steps (appended quiet) m) by (steps_auto fail);
        intros H; destruct (Ht S) as (post & Heq & HPpost);
        rewrite H in Heq; cbn [snd st_trace st_checkpoints st_timings] in Heq
    end.
    apply (Hcore post r (generate_args_quiet _ HPpost)); [by left|].
    by rewrite Heq.
  - intros [= <- <-]. apply (Hcore [] (Raise eg)); [done| |by rewrite app_nil_r].
    right. eauto.
Qed.

End RetryFacts.

(** ** Running one item *)

Module HandlerFacts.
Import Validator Storage Pipeline Logging Handler Obs MonadFacts PipelineFacts.

Lemma pipeline_is_item_event e : pipeline_event e → item_event e.
Proof. by destruct e. Qed.

Lemma upload_is_item_event e : upload_event e → item_event e.
Proof. by destruct e. Qed.

Lemma _upload_artifacts_appended w out_cfg video_path mime size_bytes :
  steps (appended upload_event)
        (_upload_artifacts_if_any w out_cfg video_path mime size_bytes).
Proof.
  unfold _upload_artifacts_if_any, upload_to_presigned_url. steps_auto fail.
Qed.

Lemma log_event_extended level event : steps (extended item_event) (log_event level event).
Proof. unfold log_event. steps_auto fail. Qed.

Lemma cp_extended w iid idx name pct : steps (extended item_event) (cp w iid idx name pct).
Proof.
  unfold cp, _progress.
  steps_auto ltac:(idtac; lazymatch goal with
                   | |- steps _ (log_event _ _) => apply log_event_extended
                   end).
Qed.

Lemma timeit_stage_extended {A} event (body : Py A) :
  steps (extended item_event) body → steps (extended item_event) (timeit_stage event body).
Proof.
  intros Hb. unfold timeit_stage.
  steps_auto ltac:(idtac; lazymatch goal with |- steps _ body => exact Hb end).
Qed.

Lemma _error_output_extended w job_id code msg stage exc cps tms :
  steps (extended item_event) (_error_output w job_id code msg stage exc cps tms).
Proof. unfold _error_output. steps_auto fail. Qed.

Ltac known_item :=
  idtac; lazymatch goal with
  | |- steps _ (cp _ _ _ _ _) => apply cp_extended
  | |- steps _ (timeit_stage _ _) => apply timeit_stage_extended
  | |- steps _ (_error_output _ _ _ _ _ _ _ _) => apply _error_output_extended
  | |- steps _ (try_block _ _ _ _ _ _ _) => unfold try_block
  | |- steps _ (except_clauses _ _ _) => unfold except_clauses
  | |- steps _ (run_inference _ _ _) =>
      apply (appended_extended pipeline_event);
      [apply pipeline_is_item_event | apply run_inference_appended]
  | |- steps _ (_upload_artifacts_if_any _ _ _ _ _) =>
      apply (appended_extended upload_event);
      [apply upload_is_item_event | apply _upload_artifacts_appended]
  end.

Lemma try_block_extended co w job_id params workdir iid idx :
  steps (extended item_event) (try_block co w job_id params workdir iid idx).
Proof. unfold try_block. steps_auto known_item. Qed.

Lemma _run_single_item_extended co w job_id params workdir iid idx :
  steps (extended item_event) (_run_single_item co w job_id params workdir iid idx).
Proof. unfold _run_single_item. steps_auto known_item. Qed.

Lemma log_event_INFO event tr c t :
  log_event "INFO" event (mk_st tr c t) = (Ok tt, mk_st (tr ++ [EvLog "INFO" event]) c t).
Proof. reflexivity. Qed.

Lemma cp_run w iid idx name pct tr c t :
  cp w iid idx name pct (mk_st tr c t) =
    (Ok tt,
     mk_st (tr ++ [EvProgress name pct iid idx; EvLog "INFO" name])
           (c ++ [mk_cp name (w_iso_now w tr)]) t).
Proof.
  unfold cp, _progress. repeat run_prim. rewrite log_event_INFO.
  by rewrite <- app_assoc.
Qed.

Lemma _error_output_run w job_id code msg stage exc cps tms tr c t :
  _error_output w job_id code msg stage exc cps tms (mk_st tr c t) =
    (Ok (mk_ErrorOutput job_id "error"
           (build_error code msg (default false (ERROR_RETRYABLE !! code)) stage exc)
           (w_format_exc w tr) tms cps), mk_st tr c t).
Proof. reflexivity. Qed.

Lemma except_clauses_run w job_id e tr c t :
  except_clauses w job_id e (mk_st tr c t) = (Ok (caught w job_id e tr c t), mk_st tr c t).
Proof.
  unfold except_clauses, caught. destruct (except_code e) as [[cd m] st]. reflexivity.
Qed.

Lemma _run_single_item_run co w job_id params workdir iid idx tr c t :
  _run_single_item co w job_id params workdir iid idx (mk_st tr c t) =
  match
    try_block co w job_id params workdir iid idx
      (mk_st (tr ++ [EvProgress "validated" 2 iid idx; EvLog "INFO" "validated"])
             [mk_cp "validated" (w_iso_now w tr)] ∅)
  with
  | (Ok a, s') => (Ok a, s')
  | (Raise e, s') =>
      (Ok (caught w job_id e (st_trace s') (st_checkpoints s') (st_timings s')), s')
  end.
Proof.
  unfold _run_single_item.
  do 2 run_prim. rewrite bind_run, cp_run. cbv beta iota. rewrite try_except_run.
  rewrite app_nil_l.
  destruct (try_block _ _ _ _ _ _ _ _) as [[r|e] [tr1 c1 t1]]; [done|].
  by rewrite except_clauses_run.
Qed.

Ltac run_item_in H :=
  lazymatch type of H with
  | context [cp ?w ?iid ?idx ?n ?p (mk_st ?tr ?c ?t)] =>
      rewrite (cp_run w iid idx n p tr c t) in H; cbv beta iota in H
  | context [log_event "INFO" ?ev (mk_st ?tr ?c ?t)] =>
      rewrite (log_event_INFO ev tr c t) in H; cbv beta iota in H
  | _ => run_prim_in H
  end.

(** An item always yields a result: every exception is caught. *)
Lemma _run_single_item_total co w job_id params workdir iid idx s :
  ∃ r, (_run_single_item co w job_id params workdir iid idx s).1 = Ok r.
Proof.
  destruct s as [tr c t]. rewrite _run_single_item_run.
  destruct (try_block _ _ _ _ _ _ _ _) as [[r|e] s1]; by eexists.
Qed.

End HandlerFacts.

(** ** The checkpoints of a successful item *)

Module CheckpointFacts.
Import Validator Storage Pipeline Logging Handler Obs MonadFacts PipelineFacts HandlerFacts.

Lemma progress_of_app (a b : trace) : progress_of (a ++ b) = progress_of a ++ progress_of b.
Proof. apply omap_app. Qed.

Lemma progress_of_quiet (P : effect → Prop) (suf : trace) :
  (∀ e, P e → progress_evt e = None) → Forall P suf → progress_of suf = [].
Proof.
  intros HP. induction 1 as [|e l He _ IH]; [done|].
  unfold progress_of in *. simpl. by rewrite (HP e He).
Qed.

Lemma pipeline_no_progress e : pipeline_event e → progress_evt e = None.
Proof. by destruct e. Qed.

Lemma upload_no_progress e : upload_event e → progress_evt e = None.
Proof. by destruct e. Qed.

Ltac inference_cases H res e suf HP :=
  match type of H with
  | context [run_inference ?w ?params ?workdir ?S] =>
      let Heq := fresh "Heq" in
      let S1 := fresh "S" in
      destruct (run_inference_appended w params workdir S) as (suf & Heq & HP);
      destruct (run_inference w params workdir S) as [[res|e] S1];
      cbn [snd st_trace st_checkpoints st_timings] in Heq; subst S1; cbv beta iota in H
  end.

Ltac upload_cases H res e suf HP :=
  match type of H with
  | context [_upload_artifacts_if_any ?w ?cfg ?p ?m ?b ?S] =>
      let Heq := fresh "Heq" in
      let S1 := fresh "S" in
      destruct (_upload_artifacts_appended w cfg p m b S) as (suf & Heq & HP);
      destruct (_upload_artifacts_if_any w cfg p m b S) as [[res|e] S1];
      cbn [snd st_trace st_checkpoints st_timings] in Heq; subst S1; cbv beta iota in H
  end.

(** Split [H : (Ok x, S) = (Ok r, s')] without reducing the states. *)
Ltac split_run H Hr Hs :=
  pose proof (f_equal snd H) as Hs; cbn [snd] in Hs;
  apply (f_equal fst) in H; cbn [fst] in H;
  injection H as Hr.

Lemma try_block_success co w job_id params workdir iid idx tr c t r s' :
  try_block co w job_id params workdir iid idx (mk_st tr c t) = (Ok r, s') →
  (∃ o, r = Success o) ∧
  cp_event <$> checkpoints r =
    (cp_event <$> c) ++ ["models_loading"; "models_ready"; "preprocessing_done";
                         "generation_start"; "postprocess_mux"; "uploading_artifacts";
                         "completed"] ∧
  ∃ suf, st_trace s' = tr ++ suf ∧ progress_of suf = tail success_stages.
Proof.
  unfold try_block, timeit_stage. cbv zeta.
  intros H.
  repeat run_item_in H.
  inference_cases H res e1 suf1 HP1.
  2:{ repeat run_item_in H. discriminate H. }
  repeat run_item_in H.
  upload_cases H up e2 suf2 HP2.
  2:{ discriminate H. }
  destruct up as [[artifacts warnings] video_summary].
  repeat run_item_in H.
  unfold _success_output in H.
  destruct (parsed "job_id" (as_str job_id)) as [jid|]; cbn [mbind result_bind] in H;
    repeat run_item_in H.
  2:{ discriminate H. }
  destruct (validate_artifacts co artifacts); cbn [mbind result_bind] in H;
    repeat run_item_in H.
  2:{ discriminate H. }
  split_run H Hr Hs. rewrite <- Hr, <- Hs. cbn [checkpoints so_checkpoints st_trace].
  split; [by eexists|]. split.
  - rewrite !fmap_app, <- !app_assoc. reflexivity.
  - eexists. split; [rewrite <- !app_assoc; reflexivity|].
    rewrite !progress_of_app.
    rewrite (progress_of_quiet _ suf1 pipeline_no_progress HP1).
    rewrite (progress_of_quiet _ suf2 upload_no_progress HP2).
    reflexivity.
Qed.

Lemma single_item_success co w job_id params workdir iid idx s r s' :
  _run_single_item co w job_id params workdir iid idx s = (Ok r, s') →
  status r = "success" →
  cp_event <$> checkpoints r = success_stages.*1 ∧
  ∃ suf, st_trace s' = st_trace s ++ suf ∧ progress_of suf = success_stages.
Proof.
  destruct s as [tr c t]. rewrite _run_single_item_run.
  destruct (try_block _ _ _ _ _ _ _ _) as [[r1|e] s1] eqn:Hb; intros H Hst.
  - injection H as <- <-.
    destruct (try_block_success _ _ _ _ _ _ _ _ _ _ _ _ Hb) as (_ & Hc & suf & Htr & Hp).
    split; [exact Hc|].
    exists ([EvProgress "validated" 2 iid idx; EvLog "INFO" "validated"] ++ suf).
    cbn [st_trace]. rewrite Htr, <- app_assoc. split; [done|].
    rewrite progress_of_app, Hp. reflexivity.
  - injection H as <- <-. discriminate Hst.
Qed.

End CheckpointFacts.

(** ** Jobs: seeding, checkpoints and error codes *)

Module RunFacts.
Import Validator Storage Pipeline Logging Handler Obs Scenario.
Import ValidatorFacts MonadFacts PipelineFacts HandlerFacts CheckpointFacts.

Lemma log_event_ERROR event tr c t :
  log_event "ERROR" event (mk_st tr c t) = (Ok tt, mk_st (tr ++ [EvLog "ERROR" event]) c t).
Proof. reflexivity. Qed.

Lemma _maybe_keep_warm_run tr c t :
  _maybe_keep_warm (mk_st tr c t) = (Ok tt, mk_st (tr ++ [EvKeepWarm]) c t).
Proof. reflexivity. Qed.

Lemma _seed_everything_run w seed tr c t :
  _seed_everything w seed (mk_st tr c t) =
    (Ok tt, mk_st (tr ++ seeding_events w tr seed) c t).
Proof.
  unfold _seed_everything, seeding_events. rewrite try_except_run.
  rewrite bind_run, emit_run. cbv beta iota. rewrite bind_run, ask_run. cbv beta iota.
  rewrite lift_run.
  destruct (w_seed_all w (tr ++ [EvSeedEverything seed]) seed) as [[]|e]; cbv beta iota.
  - reflexivity.
  - rewrite emit_run, <- app_assoc. reflexivity.
Qed.

Ltac run_handler_in H :=
  lazymatch type of H with
  | context [log_event "ERROR" ?ev (mk_st ?tr ?c ?t)] =>
      rewrite (log_event_ERROR ev tr c t) in H; cbv beta iota in H
  | context [_maybe_keep_warm (mk_st ?tr ?c ?t)] =>
      rewrite (_maybe_keep_warm_run tr c t) in H; cbv beta iota in H
  | context [_seed_everything ?w ?z (mk_st ?tr ?c ?t)] =>
      rewrite (_seed_everything_run w z tr c t) in H; cbv beta iota in H
  | context [_error_output ?w ?j ?cd ?m ?st ?ex ?cps ?tms (mk_st ?tr ?c ?t)] =>
      rewrite (_error_output_run w j cd m st ex cps tms tr c t) in H; cbv beta iota in H
  | _ => run_item_in H
  end.

Lemma _maybe_keep_warm_extended : steps (extended item_event) _maybe_keep_warm.
Proof. unfold _maybe_keep_warm. steps_auto fail. Qed.

Lemma run_items_extended co w job_id base items idx :
  steps (extended item_event) (run_items co w job_id base items idx).
Proof.
  revert idx. induction items as [|item rest IH]; intros idx; cbn [run_items].
  - steps_auto fail.
  - steps_auto ltac:(idtac; lazymatch goal with
                     | |- steps _ (_run_single_item _ _ _ _ _ _ _) =>
                         apply _run_single_item_extended
                     | |- steps _ _maybe_keep_warm => apply _maybe_keep_warm_extended
                     | |- steps _ (run_items _ _ _ _ _ _) => apply IH
                     end).
Qed.

(** The single-item or batch part of [run], after seeding. *)
Lemma batch_or_single_extended co w job_id (normalized : dict) base :
  steps (extended item_event)
    (match normalized !! "batch" with
     | Some batch_items =>
         items ← lift (match batch_items with
                       | JList l => Ok l
                       | _ => Raise (mk_exn TypeError "batch is not a list")
                       end);
         out_items ← run_items co w job_id base items 0;
         mret (Batch job_id (batch_status out_items) out_items)
     | None =>
         r ← _run_single_item co w job_id normalized base None None;
         mret (Single r)
     end).
Proof.
  steps_auto ltac:(idtac; lazymatch goal with
                   | |- steps _ (_run_single_item _ _ _ _ _ _ _) =>
                       apply _run_single_item_extended
                   | |- steps _ (run_items _ _ _ _ _ _) => apply run_items_extended
                   end).
Qed.

Lemma seeds_of_app (a b : trace) : seeds_of (a ++ b) = seeds_of a ++ seeds_of b.
Proof. apply omap_app. Qed.

Lemma seeds_of_item_events (suf : trace) : Forall item_event suf → seeds_of suf = [].
Proof.
  induction 1 as [|e l He _ IH]; [done|].
  unfold seeds_of in *. destruct e; simpl in *; done.
Qed.

Lemma seeds_of_seeding w tr seed : seeds_of (seeding_events w tr seed) = [seed].
Proof. unfold seeding_events. by destruct (w_seed_all w _ seed). Qed.

(** A single job with a seed: unless the logger table rejects the job
    id or the job's work directory cannot be created, [run] makes one
    seeding call, directly after creating the work directory, and every
    later event is an event of the item. *)
Lemma seeded_run co w (job normalized : dict) (seed : Z) s res s' :
  normalize_and_validate co job (w_defaults w) = Ok normalized →
  normalized !! "base_seed" = Some (JInt seed) →
  0 <= seed →
  run co w job s = (res, s') →
  let base := path_join "/tmp" ("job-" +:+ py_str (w_str w) (job_id_of w job)) in
  let pre := [EvLog "INFO" "received"; EvKeepWarm; EvMakedirs base] in
  match get_logger (job_id_of w job), w_makedirs w (st_trace s ++ pre) base with
  | Raise e, _ => res = Raise e ∧ s' = s
  | Ok _, Raise e => res = Raise e ∧ st_trace s' = st_trace s ++ pre
  | Ok _, Ok _ =>
      ∃ suf,
        st_trace s' =
          st_trace s ++ pre ++ seeding_events w (st_trace s ++ pre) seed ++ suf ∧
        Forall item_event suf ∧
        seeds_of (pre ++ seeding_events w (st_trace s ++ pre) seed ++ suf) = [seed]
  end.
Proof.
  intros Hn Hseed Hpos H. cbv zeta. destruct s as [tr c t]. cbn [st_trace].
  unfold run in H. cbv zeta in H. rewrite Hn in H.
  rewrite bind_run, lift_run in H.
  destruct (get_logger (job_id_of w job)) as [[]|e0]; cbv beta iota in H.
  2:{ by injection H as <- <-. }
  do 2 run_handler_in H. rewrite bind_run in H. run_handler_in H.
  unfold run_normalized in H. cbv zeta in H.
  rewrite bind_run, makedirs_run in H. rewrite <- !app_assoc in H. cbn [app] in H.
  destruct (w_makedirs w _ _) as [[]|e1]; cbv beta iota in H.
  2:{ injection H as <- <-. done. }
  rewrite bind_run in H.
  unfold seed_if_provided in H. rewrite Hseed in H.
  destruct (0 <=? seed) eqn:Hle; [|apply Z.leb_gt in Hle; lia].
  run_handler_in H.
  match type of H with
  | ?m ?S = _ =>
      destruct (batch_or_single_extended co w (job_id_of w job) normalized
                  (path_join "/tmp" ("job-" +:+ py_str (w_str w) (job_id_of w job))) S)
        as (suf & Htr & Hsuf)
  end.
  rewrite H in Htr. cbn [snd st_trace] in Htr.
  exists suf. split; [|split; [done|]].
  - rewrite Htr, <- !app_assoc. reflexivity.
  - rewrite !seeds_of_app, seeds_of_seeding, (seeds_of_item_events suf Hsuf). reflexivity.
Qed.

(** *** Single jobs through [run] *)

Lemma progress_of_seeding w tr seed : progress_of (seeding_events w tr seed) = [].
Proof. unfold seeding_events. by destruct (w_seed_all w _ seed). Qed.

Lemma seed_if_provided_run w (normalized : dict) tr c t :
  ∃ pre, seed_if_provided w normalized (mk_st tr c t) = (Ok tt, mk_st (tr ++ pre) c t) ∧
         progress_of pre = [].
Proof.
  unfold seed_if_provided.
  destruct (normalized !! "base_seed") as [[| b | z | | | |]|];
    try (exists []; rewrite ret_run, app_nil_r; split; reflexivity).
  - eexists. rewrite _seed_everything_run. split; [reflexivity | apply progress_of_seeding].
  - destruct (0 <=? z).
    + eexists. rewrite _seed_everything_run.
      split; [reflexivity | apply progress_of_seeding].
    + exists []. rewrite ret_run, app_nil_r. split; reflexivity.
Qed.

Lemma run_single co w (job : dict) s r s' :
  run co w job s = (Ok (Single r), s') →
  status r = "success" →
  ∃ normalized s0,
    normalize_and_validate co job (w_defaults w) = Ok normalized ∧
    normalized !! "batch" = None ∧
    (∃ pre, st_trace s0 = st_trace s ++ pre ∧ progress_of pre = []) ∧
    _run_single_item co w (job_id_of w job) normalized
      (path_join "/tmp" ("job-" +:+ py_str (w_str w) (job_id_of w job))) None None s0 =
      (Ok r, s').
Proof.
  intros H Hst. destruct s as [tr c t].
  unfold run in H. cbv zeta in H.
  rewrite bind_run, lift_run in H.
  destruct (get_logger (job_id_of w job)) as [[]|e0]; cbv beta iota in H;
    [|discriminate H].
  destruct (normalize_and_validate co job (w_defaults w)) as [normalized|e] eqn:Hn.
  - do 2 run_handler_in H. rewrite bind_run in H. run_handler_in H.
    unfold run_normalized in H. cbv zeta in H.
    rewrite bind_run, makedirs_run in H.
    destruct (w_makedirs w _ _) as [[]|e1]; cbv beta iota in H; [|discriminate H].
    rewrite bind_run in H.
    match type of H with
    | context [seed_if_provided ?w0 ?n (mk_st ?tr1 ?c1 ?t1)] =>
        destruct (seed_if_provided_run w0 n tr1 c1 t1) as (pre & Hs & Hpre)
    end.
    rewrite Hs in H. cbv beta iota in H.
    destruct (normalized !! "batch") as [b|] eqn:Hb.
    + (* a batch never yields a [Single] result *)
      run_handler_in H. destruct b; repeat run_handler_in H; try discriminate H.
      match type of H with
      | context [run_items ?a1 ?a2 ?a3 ?a4 ?a5 ?a6 ?a7] =>
          destruct (run_items a1 a2 a3 a4 a5 a6 a7) as [[o|e] s1]
      end; cbv beta iota in H; repeat run_handler_in H; discriminate H.
    + rewrite bind_run in H.
      match type of H with
      | context [_run_single_item ?a1 ?a2 ?a3 ?a4 ?a5 ?a6 ?a7 ?a8] =>
          destruct (_run_single_item a1 a2 a3 a4 a5 a6 a7 a8) as [[r1|e] s1] eqn:Hr
      end; cbv beta iota in H; repeat run_handler_in H; [|discriminate H].
      injection H as <- <-. exists normalized. eexists.
      split; [reflexivity|]. split; [exact Hb|].
      split; [|exact Hr].
      eexists. cbn [st_trace]. rewrite <- !app_assoc. split; [reflexivity|].
      rewrite progress_of_app. exact Hpre.
  - repeat run_handler_in H. injection H as <- <-. discriminate Hst.
Qed.

(** C1, as amended. For every single job that completes successfully
    the checkpoint list of the Success envelope is exactly the eight
    names validated, models_loading, models_ready, preprocessing_done,
    generation_start, postprocess_mux, uploading_artifacts, completed;
    the progress updates of the run are these stages with the
    percentages 2, 15, 18, 19, 20, 90, 92, 100, which never decrease and
    end at 100. *)
Theorem successful_job_checkpoints co w (job : dict) s r s' :
  run co w job s = (Ok (Single r), s') →
  status r = "success" →
  cp_event <$> checkpoints r =
    ["validated"; "models_loading"; "models_ready"; "preprocessing_done";
     "generation_start"; "postprocess_mux"; "uploading_artifacts"; "completed"] ∧
  ∃ suf,
    st_trace s' = st_trace s ++ suf ∧
    progress_of suf =
      [("validated", 2); ("models_loading", 15); ("models_ready", 18);
       ("preprocessing_done", 19); ("generation_start", 20); ("postprocess_mux", 90);
       ("uploading_artifacts", 92); ("completed", 100)] ∧
    non_decreasing (progress_of suf).*2 ∧
    last (progress_of suf).*2 = Some 100.
Proof.
  intros H Hst.
  destruct (run_single _ _ _ _ _ _ H Hst) as (normalized & s0 & _ & _ & (pre & Hpre & Hq) & Hr).
  destruct (single_item_success _ _ _ _ _ _ _ _ _ _ Hr Hst) as (Hc & suf & Htr & Hp).
  split; [exact Hc|].
  exists (pre ++ suf). rewrite Htr, Hpre, <- app_assoc. split; [done|].
  rewrite progress_of_app, Hq, Hp. cbn. repeat split; lia.
Qed.

(** *** The catch site *)

Lemma except_code_cases (e : exn) :
  (is_RuntimeError (exn_class e) = false → is_MemoryError (exn_class e) = true →
   (except_code e).1.1 = "E_OOM") ∧
  (is_RuntimeError (exn_class e) = true → contains "Model paths" (exn_msg e) = true →
   (except_code e).1.1 = "E_PIPELINE_LOAD") ∧
  (is_RuntimeError (exn_class e) = true → contains "Model paths" (exn_msg e) = false →
   (except_code e).1.1 = "E_GENERATION_RUNTIME") ∧
  (is_RuntimeError (exn_class e) = false → is_MemoryError (exn_class e) = false →
   (except_code e).1.1 =
     if contains "ffmpeg" (lower (exn_msg e)) then "E_FFMPEG"
     else if (contains "WAV2VEC_DIR" (exn_msg e) ||
              contains "audio embedding" (lower (exn_msg e)))%bool
          then "E_AUDIO_EMBEDDING"
          else "E_GENERATION_RUNTIME").
Proof.
  unfold except_code.
  destruct (is_RuntimeError (exn_class e)), (is_MemoryError (exn_class e)),
    (contains "Model paths" (exn_msg e)); cbn [fst]; repeat split; intros;
    try discriminate; reflexivity.
Qed.

(** C5, as amended. Every error envelope of an item is built from the
    exception [e] its [try] block raised, recorded as the cause under
    the name of its class, and the retryable flag is the table's value
    for the code.  An instance of [MemoryError] that is not one of
    [RuntimeError] maps to E_OOM.  An instance of [RuntimeError] whose
    message contains "Model paths" maps to E_PIPELINE_LOAD; one that is
    not the device's out-of-memory error and mentions none of the known
    vocabulary maps to E_GENERATION_RUNTIME.  An exception that is an
    instance of neither follows the message inspection of the mapping
    policy: ffmpeg first, then the audio-embedding path, then
    E_GENERATION_RUNTIME.  Instances are instances of subclasses too. *)
Theorem error_code_at_catch_site co w job_id params workdir iid idx s out s' :
  _run_single_item co w job_id params workdir iid idx s = (Ok (Error out), s') →
  ∃ e s0,
    try_block co w job_id params workdir iid idx s0 = (Raise e, s') ∧
    cause_class (eo_error out) = Some (class_name (exn_class e)) ∧
    cause_message (eo_error out) = Some (exn_msg e) ∧
    retryable (eo_error out) = default false (ERROR_RETRYABLE !! code (eo_error out)) ∧
    (is_RuntimeError (exn_class e) = false → is_MemoryError (exn_class e) = true →
     code (eo_error out) = "E_OOM") ∧
    (is_RuntimeError (exn_class e) = true → contains "Model paths" (exn_msg e) = true →
     code (eo_error out) = "E_PIPELINE_LOAD") ∧
    (is_RuntimeError (exn_class e) = true → is_OutOfMemoryError (exn_class e) = false →
     contains "Model paths" (exn_msg e) = false →
     contains "ffmpeg" (lower (exn_msg e)) = false →
     contains "WAV2VEC_DIR" (exn_msg e) = false →
     contains "audio embedding" (lower (exn_msg e)) = false →
     code (eo_error out) = "E_GENERATION_RUNTIME") ∧
    (is_RuntimeError (exn_class e) = false → is_MemoryError (exn_class e) = false →
     code (eo_error out) =
       if contains "ffmpeg" (lower (exn_msg e)) then "E_FFMPEG"
       else if (contains "WAV2VEC_DIR" (exn_msg e) ||
                contains "audio embedding" (lower (exn_msg e)))%bool
            then "E_AUDIO_EMBEDDING"
            else "E_GENERATION_RUNTIME").
Proof.
  destruct s as [tr c t]. rewrite _run_single_item_run.
  match goal with
  | |- context [try_block ?a1 ?a2 ?a3 ?a4 ?a5 ?a6 ?a7 ?a8] =>
      destruct (try_block a1 a2 a3 a4 a5 a6 a7 a8) as [[r|e] [tr1 c1 t1]] eqn:Hb
  end; intros H.
  - destruct (try_block_success _ _ _ _ _ _ _ _ _ _ _ _ Hb) as ((o & ->) & _).
    discriminate H.
  - cbn [st_trace st_checkpoints st_timings] in H. unfold caught in H.
    injection H as <- <-. cbn [eo_error].
    destruct (except_code_cases e) as (Hm & Hp & Hg & Hs).
    exists e. eexists. split; [exact Hb|]. clear Hb.
    unfold build_error. cbn [cause_class cause_message retryable code fmap option_fmap option_map].
    split; [reflexivity|]. split; [reflexivity|]. split; [reflexivity|].
    split; [exact Hm|]. split; [exact Hp|]. split; [intros; by apply Hg|].
    exact Hs.
Qed.

(** *** Which errors are reported as out of memory *)

Lemma except_code_oom (e : exn) :
  (except_code e).1.1 = "E_OOM" →
  is_MemoryError (exn_class e) = true ∧ is_RuntimeError (exn_class e) = false ∧
  (except_code e).1.2 = "Out of memory." ∧ (except_code e).2 = "generation".
Proof.
  unfold except_code. destruct (is_RuntimeError (exn_class e)) eqn:Hr; cbv zeta.
  - cbn [fst]. destruct (contains "Model paths" (exn_msg e)); discriminate.
  - destruct (is_MemoryError (exn_class e)) eqn:Hm.
    + intros _. done.
    + cbn [fst]. destruct (contains "ffmpeg" (lower (exn_msg e))); [discriminate|].
      destruct (contains "WAV2VEC_DIR" (exn_msg e) ||
                contains "audio embedding" (lower (exn_msg e)))%bool; discriminate.
Qed.

(** X3. An error envelope of an item carries E_OOM only when the
    exception caught is an instance of Python's [MemoryError] and not
    of [RuntimeError]; its class is recorded as the cause and the
    message is "Out of memory.".  The device's out-of-memory error, a
    [RuntimeError], is never reported as E_OOM. *)
Theorem oom_code_only_for_MemoryError co w job_id (params : dict) workdir iid idx s out s' :
  _run_single_item co w job_id params workdir iid idx s = (Ok (Error out), s') →
  code (eo_error out) = "E_OOM" →
  ∃ e s0,
    try_block co w job_id params workdir iid idx s0 = (Raise e, s') ∧
    is_MemoryError (exn_class e) = true ∧
    is_RuntimeError (exn_class e) = false ∧
    cause_class (eo_error out) = Some (class_name (exn_class e)) ∧
    message (eo_error out) = "Out of memory." ∧
    at_stage (eo_error out) = Some "generation".
Proof.
  destruct s as [tr c t]. rewrite _run_single_item_run.
  match goal with
  | |- context [try_block ?a1 ?a2 ?a3 ?a4 ?a5 ?a6 ?a7 ?a8] =>
      destruct (try_block a1 a2 a3 a4 a5 a6 a7 a8) as [[r|e] [tr1 c1 t1]] eqn:Hb
  end; intros H.
  - destruct (try_block_success _ _ _ _ _ _ _ _ _ _ _ _ Hb) as ((o & ->) & _).
    discriminate H.
  - cbn [st_trace st_checkpoints st_timings] in H. unfold caught in H.
    injection H as <- <-. cbn [eo_error].
    unfold build_error.
    cbn [cause_class code message at_stage fmap option_fmap option_map].
    intros Hc. destruct (except_code_oom e Hc) as (Hm & Hr & Hmsg & Hst).
    exists e. eexists. split; [exact Hb|]. clear Hb.
    split; [exact Hm|]. split; [exact Hr|]. split; [reflexivity|].
    split; [exact Hmsg|]. by rewrite Hst.
Qed.

End RunFacts.

(** ** Batches *)

Module BatchFacts.
Import Validator Storage Pipeline Logging Handler Obs Scenario.
Import ValidatorFacts MonadFacts PipelineFacts HandlerFacts CheckpointFacts RunFacts.

Lemma normalize_items_valid co (items norms : list json) (defaults : dict) :
  normalize_items co items defaults = Ok norms →
  Forall (valid_item co) norms.
Proof.
  revert norms. induction items as [|it rest IH]; intros norms H;
    cbn [normalize_items] in H.
  - injection H as <-. constructor.
  - destruct it as [| | | | | |d]; cbn [mbind result_bind] in H; try discriminate.
    destruct (apply_defaults_to_single d defaults) as [norm|] eqn:Hn;
      cbn [mbind result_bind] in H; [|discriminate].
    destruct (BatchInput_model_validate co (JObj norm)) as [b|] eqn:Hb;
      cbn [mbind result_bind] in H; [|discriminate].
    destruct (normalize_items co rest defaults) as [ns|] eqn:Hr;
      cbn [mbind result_bind] in H; [|discriminate].
    injection H as <-. constructor; [|by apply IH].
    unfold valid_item. by rewrite Hb.
Qed.

Lemma normalize_batch_shape co (env defaults p out : dict) (x : json) :
  env !! "input" = Some (JObj p) → p !! "batch" = Some x →
  normalize_and_validate co env defaults = Ok out →
  ∃ orig norms,
    x = JList orig ∧ out !! "batch" = Some (JList norms) ∧
    length norms = length orig ∧ Forall (valid_item co) norms.
Proof.
  intros Hin Hb H. unfold normalize_and_validate in H.
  destruct (EnvelopeInput_model_validate co env) as [e|] eqn:He; [|discriminate].
  destruct (envelope_ok _ _ _ He) as (Hi & _ & Hc).
  assert (Hp : input e = p) by congruence. cbn [mbind result_bind] in H.
  rewrite Hp in H, Hc. rewrite Hb in H.
  unfold check_single_or_batch in Hc. rewrite Hb in Hc.
  destruct x as [| | | | |[|it rest]|]; try discriminate.
  destruct (normalize_items co (it :: rest) defaults) as [norms|] eqn:Hn; [|discriminate].
  cbn [mbind result_bind] in H.
  destruct (normalize_items_idem _ _ _ _ Hn) as (_ & _ & Hlen).
  exists (it :: rest), norms. split; [reflexivity|].
  split; [|split; [exact Hlen | by eapply normalize_items_valid]].
  destruct (p !! "output_config"); injection H as <-.
  - rewrite lookup_insert_ne by done. apply lookup_singleton_eq.
  - apply lookup_singleton_eq.
Qed.

Lemma valid_item_id co (it : json) (idx : nat) :
  valid_item co it → ∃ d item_id, it = JObj d ∧ item_id_of it idx = Ok item_id.
Proof.
  unfold valid_item. destruct it as [| | | | | |d]; try discriminate.
  intros H. exists d. unfold BatchInput_model_validate in H.
  apply is_ok_bind in H as (i & Hi & _).
  unfold item_id_of, attr_get, py_get. cbn [mbind result_bind].
  unfold optional in Hi.
  destruct (d !! "id") as [[| | | |s| |]|]; cbn in Hi; try discriminate Hi;
    simpl; try (eexists; split; reflexivity).
  destruct (String.eqb s ""); simpl; eexists; split; reflexivity.
Qed.

Lemma single_item_validated co w job_id params workdir iid idx s :
  EvProgress "validated" 2 iid idx ∈
    st_trace (_run_single_item co w job_id params workdir iid idx s).2.
Proof.
  destruct s as [tr c t]. rewrite _run_single_item_run.
  match goal with
  | |- context [try_block ?a1 ?a2 ?a3 ?a4 ?a5 ?a6 ?a7 ?S] =>
      destruct (try_block_extended a1 a2 a3 a4 a5 a6 a7 S) as (suf & Htr & _);
      destruct (try_block a1 a2 a3 a4 a5 a6 a7 S) as [[r|e] s1]
  end; cbn [snd st_trace] in *; rewrite Htr;
    rewrite !elem_of_app; left; right; apply list_elem_of_here.
Qed.

Lemma extended_elem_of P (s s' : St) (e : effect) :
  extended P s s' → e ∈ st_trace s → e ∈ st_trace s'.
Proof. intros (suf & -> & _) H. apply elem_of_app. by left. Qed.

Lemma run_items_spec co w job_id base (items : list json) (idx : nat) (s : St) :
  Forall (valid_item co) items →
  (∀ tr item_id, w_makedirs w tr (path_join base item_id) = Ok tt) →
  ∃ outs s',
    run_items co w job_id base items idx s = (Ok outs, s') ∧
    extended item_event s s' ∧
    length outs = length items ∧
    items_ran co w job_id base items idx s outs s' ∧
    ∀ (i : nat) (item : json), items !! i = Some item →
      ∃ item_id r,
        outs !! i = Some (item_id, r) ∧
        item_id_of item (idx + i) = Ok item_id ∧
        EvProgress "validated" 2 (Some item_id) (Some (idx + i)%nat) ∈ st_trace s'.
Proof.
  intros Hv Hmk. revert idx s. induction Hv as [|item rest Hitem _ IH]; intros idx s.
  - exists [], s. cbn [run_items]. rewrite ret_run.
    split; [reflexivity|]. split; [apply extended_refl|]. split; [reflexivity|].
    split; [reflexivity|].
    intros i item Hi. by rewrite lookup_nil in Hi.
  - destruct (valid_item_id co item idx Hitem) as (d & item_id & -> & Hid).
    destruct s as [tr c t]. cbn [run_items]. rewrite Hid.
    do 2 run_prim. cbv zeta. rewrite bind_run, makedirs_run, Hmk. cbv beta iota.
    rewrite bind_run.
    pose proof (single_item_validated co w job_id d (path_join base item_id)
                  (Some item_id) (Some idx)
                  (mk_st (tr ++ [EvMakedirs (path_join base item_id)]) c t)) as Hin.
    pose proof (_run_single_item_extended co w job_id d (path_join base item_id)
                  (Some item_id) (Some idx)
                  (mk_st (tr ++ [EvMakedirs (path_join base item_id)]) c t)) as Hex.
    destruct (_run_single_item_total co w job_id d (path_join base item_id)
                  (Some item_id) (Some idx)
                  (mk_st (tr ++ [EvMakedirs (path_join base item_id)]) c t)) as (r & Hr).
    destruct (_run_single_item co w job_id d (path_join base item_id)
                (Some item_id) (Some idx)
                (mk_st (tr ++ [EvMakedirs (path_join base item_id)]) c t))
      as [res [tr1 c1 t1]] eqn:Hrun.
    cbn [fst snd] in *. subst res. cbv beta iota.
    rewrite bind_run, _maybe_keep_warm_run. cbv beta iota. rewrite bind_run.
    destruct (IH (S idx) (mk_st (tr1 ++ [EvKeepWarm]) c1 t1))
      as (outs & s' & Hrest & Hext & Hlen & Hran & Hall).
    rewrite Hrest. cbv beta iota. rewrite ret_run.
    exists ((item_id, r) :: outs), s'. split; [reflexivity|].
    assert (Hext0 : extended item_event (mk_st tr c t) s').
    { etrans; [|exact Hext].
      destruct Hex as (suf & Hsuf & HP). cbn [st_trace] in Hsuf.
      exists ([EvMakedirs (path_join base item_id)] ++ suf ++ [EvKeepWarm]). split.
      - cbn [st_trace]. rewrite Hsuf, <- !app_assoc. reflexivity.
      - apply Forall_app. split; [by apply Forall_singleton|].
        apply Forall_app. split; [exact HP | by apply Forall_singleton]. }
    split; [exact Hext0|]. split; [cbn [length]; by rewrite Hlen|].
    split.
    { cbn [items_ran st_trace st_checkpoints st_timings]. split; [exact Hid|].
      exists d. eexists. split; [reflexivity|]. split; [exact Hrun|]. exact Hran. }
    intros [|i] it Hi.
    + cbn in Hi. injection Hi as <-.
      exists item_id, r. rewrite Nat.add_0_r.
      split; [reflexivity|]. split; [exact Hid|].
      eapply extended_elem_of; [exact Hext|]. cbn [st_trace].
      apply elem_of_app. left. exact Hin.
    + cbn in Hi. destruct (Hall i it Hi) as (id' & r' & H2 & H3 & H4).
      replace (idx + S i)%nat with (S idx + i)%nat by lia.
      exists id', r'. repeat split; assumption.
Qed.

Lemma normalize_batch_no_seed co (env defaults p out : dict) (x : json) :
  env !! "input" = Some (JObj p) → p !! "batch" = Some x →
  normalize_and_validate co env defaults = Ok out →
  out !! "base_seed" = None.
Proof.
  intros Hin Hb H. unfold normalize_and_validate in H.
  destruct (EnvelopeInput_model_validate co env) as [e|] eqn:He; [|discriminate].
  destruct (envelope_ok _ _ _ He) as (Hi & _ & Hc).
  assert (Hp : input e = p) by congruence. cbn [mbind result_bind] in H.
  rewrite Hp in H, Hc. rewrite Hb in H.
  unfold check_single_or_batch in Hc. rewrite Hb in Hc.
  destruct x as [| | | | |[|it rest]|]; try discriminate.
  destruct (normalize_items co (it :: rest) defaults) as [norms|] eqn:Hn; [|discriminate].
  cbn [mbind result_bind] in H.
  destruct (p !! "output_config"); injection H as <-.
  - rewrite lookup_insert_ne by done. by apply lookup_singleton_ne.
  - by apply lookup_singleton_ne.
Qed.

Lemma batch_status_success (outs : list (string * JobResult)) :
  batch_status outs = "success" ↔ Forall (λ x, status x.2 = "success") outs.
Proof.
  unfold batch_status.
  destruct (forallb _ outs) eqn:Hf.
  - split; [intros _|reflexivity]. apply Forall_forall. intros x Hx.
    rewrite forallb_forall in Hf. apply String.eqb_eq, Hf. by apply list_elem_of_In.
  - split; [discriminate|]. intros Hall. exfalso.
    assert (forallb (λ x, String.eqb (status x.2) "success") outs = true); [|congruence].
    apply forallb_forall. intros x Hx. apply String.eqb_eq.
    rewrite Forall_forall in Hall. apply Hall. by apply list_elem_of_In.
Qed.

Lemma batch_status_partial (outs : list (string * JobResult)) :
  Exists (λ x, status x.2 ≠ "success") outs → batch_status outs = "partial".
Proof.
  intros Hex. unfold batch_status.
  destruct (forallb _ outs) eqn:Hf; [|reflexivity]. exfalso.
  apply Exists_exists in Hex as (x & Hx & Hne). apply Hne.
  rewrite forallb_forall in Hf. apply String.eqb_eq, Hf. by apply list_elem_of_In.
Qed.


(** *** Seeding and batches *)

Lemma run_unseeded co w (job : dict) :
  (∀ n, normalize_and_validate co job (w_defaults w) = Ok n → n !! "base_seed" = None) →
  steps (extended item_event) (run co w job).
Proof.
  intros Hn. unfold run. cbv zeta.
  destruct (normalize_and_validate co job (w_defaults w)) as [n|e].
  - unfold run_normalized, seed_if_provided. rewrite (Hn n eq_refl).
    steps_auto ltac:(idtac; lazymatch goal with
                     | |- steps _ (log_event _ _) => apply log_event_extended
                     | |- steps _ _maybe_keep_warm => apply _maybe_keep_warm_extended
                     | |- steps _ (_run_single_item _ _ _ _ _ _ _) =>
                         apply _run_single_item_extended
                     | |- steps _ (run_items _ _ _ _ _ _) => apply run_items_extended
                     end).
  - steps_auto ltac:(idtac; lazymatch goal with
                     | |- steps _ (log_event _ _) => apply log_event_extended
                     | |- steps _ _maybe_keep_warm => apply _maybe_keep_warm_extended
                     | |- steps _ (_error_output _ _ _ _ _ _ _ _) =>
                         apply _error_output_extended
                     end).
Qed.

(** X4. A batch job never seeds: its normalized input has no top-level
    [base_seed], and running the items makes no seeding call, whatever
    seeds the items carry. *)
Theorem batch_job_never_seeds co w (job p : dict) (x : json) s :
  job !! "input" = Some (JObj p) → p !! "batch" = Some x →
  ∃ suf, st_trace (run co w job s).2 = st_trace s ++ suf ∧ seeds_of suf = [].
Proof.
  intros Hin Hb.
  destruct (run_unseeded co w job) with (s := s) as (suf & Htr & Hsuf).
  - intros n Hn. by eapply normalize_batch_no_seed.
  - exists suf. split; [exact Htr|]. by apply seeds_of_item_events.
Qed.


End BatchFacts.

(** ** Remote fetches *)

Module StorageFacts.
Import Storage Obs MonadFacts.

Lemma gets_of_app (a b : trace) : gets_of (a ++ b) = gets_of a ++ gets_of b.
Proof. apply omap_app. Qed.

Lemma sleeps_of_app (a b : trace) : sleeps_of (a ++ b) = sleeps_of a ++ sleeps_of b.
Proof. apply omap_app. Qed.

Lemma after_get_quiet (suf : trace) :
  Forall after_get suf → gets_of suf = [] ∧ sleeps_of suf = [].
Proof.
  induction 1 as [|e l He _ [IH1 IH2]]; [done|].
  unfold gets_of, sleeps_of in *. destruct e; simpl in *; done.
Qed.

Lemma attempt_once_run w url workdir filename checksum attempt tr c t :
  ∃ suf,
    (attempt_once w url workdir filename checksum attempt (mk_st tr c t)).2 =
      mk_st (tr ++ EvHttpGet url attempt :: suf) c t ∧
    Forall after_get suf.
Proof.
  unfold attempt_once. do 4 run_prim.
  destruct (w_http_get w _ url) as [e|m total digest].
  - run_prim. exists []. split; [reflexivity | constructor].
  - cbv zeta. rewrite bind_run, makedirs_run.
    destruct (w_makedirs w _ workdir) as [[]|e]; cbv beta iota.
    + do 2 run_prim.
      match goal with |- context [if ?b then _ else _] => destruct b end; run_prim;
        eexists; (split; [cbn [snd]; rewrite <- !app_assoc; reflexivity|]);
        repeat constructor.
    + eexists. split; [cbn [snd]; rewrite <- !app_assoc; reflexivity|].
      repeat constructor.
Qed.

Ltac attempt_cases a r s1 suf Hs HP :=
  match goal with
  | |- context [attempt_once ?w ?url ?wd ?fn ?ck a (mk_st ?tr ?c ?t)] =>
      destruct (attempt_once_run w url wd fn ck a tr c t) as (suf & Hs & HP);
      destruct (attempt_once w url wd fn ck a (mk_st tr c t)) as [r s1] eqn:?;
      cbn [snd] in Hs; subst s1
  end.


End StorageFacts.

(** ** The polling interval *)

Module UiFacts.
Import Pipeline Ui Obs MonadFacts StorageFacts.

Lemma poll_interval_cases (e : Q) :
  ((POLL_INIT_SEC + e / POLL_BACKOFF_AFTER_S * (POLL_MAX_SEC - POLL_INIT_SEC) <= POLL_MAX_SEC)%Q ∧
   (poll_interval e == POLL_INIT_SEC + e / POLL_BACKOFF_AFTER_S * (POLL_MAX_SEC - POLL_INIT_SEC))%Q) ∨
  ((POLL_MAX_SEC <= POLL_INIT_SEC + e / POLL_BACKOFF_AFTER_S * (POLL_MAX_SEC - POLL_INIT_SEC))%Q ∧
   (poll_interval e == POLL_MAX_SEC)%Q).
Proof.
  unfold poll_interval.
  destruct (Q.min_spec_le POLL_MAX_SEC
              (POLL_INIT_SEC + e / POLL_BACKOFF_AFTER_S * (POLL_MAX_SEC - POLL_INIT_SEC)))
    as [[H1 H2]|[H1 H2]]; [right | left]; split; assumption.
Qed.

Lemma linear_part (e : Q) :
  (POLL_INIT_SEC + e / POLL_BACKOFF_AFTER_S * (POLL_MAX_SEC - POLL_INIT_SEC) ==
   2 + e * (1 # 30))%Q.
Proof. unfold POLL_INIT_SEC, POLL_MAX_SEC, POLL_BACKOFF_AFTER_S. field. Qed.

Lemma poll_interval_bounds (e : Q) : (0 <= e)%Q → in_bounds (poll_interval e).
Proof.
  intros He. unfold in_bounds.
  destruct (poll_interval_cases e) as [[H1 H2]|[H1 H2]]; rewrite H2.
  - split; [|exact H1]. rewrite linear_part. unfold POLL_INIT_SEC. lra.
  - unfold POLL_INIT_SEC, POLL_MAX_SEC. split; lra.
Qed.

Lemma poll_interval_start : (poll_interval 0 == POLL_INIT_SEC)%Q.
Proof. reflexivity. Qed.

Lemma poll_interval_linear (e : Q) :
  (0 <= e)%Q → (e <= POLL_BACKOFF_AFTER_S)%Q →
  (poll_interval e ==
   POLL_INIT_SEC + e / POLL_BACKOFF_AFTER_S * (POLL_MAX_SEC - POLL_INIT_SEC))%Q.
Proof.
  intros H0 H1. destruct (poll_interval_cases e) as [[_ H]|[Hge H]]; [exact H|].
  rewrite H. rewrite linear_part in *. unfold POLL_MAX_SEC, POLL_BACKOFF_AFTER_S in *. lra.
Qed.

Lemma poll_interval_capped (e : Q) :
  (POLL_BACKOFF_AFTER_S <= e)%Q → (poll_interval e == POLL_MAX_SEC)%Q.
Proof.
  intros H1. destruct (poll_interval_cases e) as [[Hle H]|[_ H]]; [|exact H].
  rewrite H. rewrite linear_part in *. unfold POLL_MAX_SEC, POLL_BACKOFF_AFTER_S in *. lra.
Qed.

Lemma poll_interval_mono (e1 e2 : Q) :
  (e1 <= e2)%Q → (poll_interval e1 <= poll_interval e2)%Q.
Proof.
  intros H.
  destruct (poll_interval_cases e1) as [[A1 B1]|[A1 B1]];
    destruct (poll_interval_cases e2) as [[A2 B2]|[A2 B2]];
    rewrite B1, B2; rewrite ?linear_part in *; unfold POLL_MAX_SEC in *; lra.
Qed.

Lemma poll_interval_le_max (e : Q) : (poll_interval e <= POLL_MAX_SEC)%Q.
Proof. unfold poll_interval. apply Q.le_min_l. Qed.

Lemma poll_interval_ge_min (e : Q) : (0 <= e)%Q → (POLL_INIT_SEC <= poll_interval e)%Q.
Proof. intros He. apply (poll_interval_bounds e He). Qed.

Lemma queries_of_app (a b : trace) : queries_of (a ++ b) = queries_of a ++ queries_of b.
Proof. apply omap_app. Qed.

Lemma sleeps_follow_query c job_id start tr :
  sleeps_follow c job_id start tr [EvStatusQuery job_id].
Proof. intros [|? [|? ?]] q post Heq; discriminate Heq. Qed.

Lemma sleeps_follow_update c job_id start tr pct stage :
  sleeps_follow c job_id start tr [EvStatusQuery job_id; EvUiProgress pct stage].
Proof. intros [|? [|? [|? ?]]] q post Heq; discriminate Heq. Qed.

Lemma sleeps_follow_step c job_id start tr pct stage suf :
  sleeps_follow c job_id start
    (tr ++ [EvStatusQuery job_id; EvUiProgress pct stage;
            EvSleep (poll_interval (c_time c (tr ++ [EvStatusQuery job_id]) - start))]) suf →
  sleeps_follow c job_id start tr
    ([EvStatusQuery job_id; EvUiProgress pct stage;
      EvSleep (poll_interval (c_time c (tr ++ [EvStatusQuery job_id]) - start))] ++ suf).
Proof.
  intros IH pre q post Heq.
  destruct pre as [|e1 [|e2 [|e3 pre]]]; try discriminate Heq.
  - cbn [app] in Heq. injection Heq as H1 H2 H3 H4. subst e1 e2 q.
    by exists [], pct, stage.
  - cbn [app] in Heq. injection Heq as H1 H2 H3 Heq. subst e1 e2 e3.
    destruct (IH pre q post Heq) as (pre0 & pct' & stage' & -> & ->).
    exists ([EvStatusQuery job_id; EvUiProgress pct stage;
             EvSleep (poll_interval (c_time c (tr ++ [EvStatusQuery job_id]) - start))]
            ++ pre0), pct', stage'.
    split; [reflexivity|]. by rewrite <- !app_assoc.
Qed.

Lemma poll_loop_spec (c : Client) (job_id : string) (start : Q) (fuel : nat) tr cs t :
  ∃ suf,
    (poll_loop c job_id start fuel (mk_st tr cs t)).2 = mk_st (tr ++ suf) cs t ∧
    sleeps_follow c job_id start tr suf ∧
    match (poll_loop c job_id start fuel (mk_st tr cs t)).1 with
    | Ok None =>
        queries_of suf = replicate fuel job_id ∧ length (sleeps_of suf) = fuel
    | _ =>
        queries_of suf = replicate (S (length (sleeps_of suf))) job_id ∧
        (length (sleeps_of suf) < fuel)%nat
    end ∧
    Forall (λ q, (0 <= q)%Q ∧ (q <= POLL_MAX_SEC)%Q) (sleeps_of suf) ∧
    ((∀ tr' : trace, tr `prefix_of` tr' → (start <= c_time c tr')%Q) →
     Forall (λ q, (POLL_INIT_SEC <= q)%Q) (sleeps_of suf)).
Proof.
  revert tr. induction fuel as [|fuel IH]; intros tr; cbn [poll_loop].
  - rewrite ret_run. exists []. cbn [fst snd]. rewrite app_nil_r.
    split; [reflexivity|]. split; [by intros [|? ?] ? ? ?|]. repeat split; constructor.
  - do 4 run_prim.
    destruct (c_get_status c _ job_id) as [status|e].
    2:{ rewrite ret_run. exists [EvStatusQuery job_id]. cbn [fst snd].
        split; [reflexivity|]. split; [apply sleeps_follow_query|].
        split; [split; [reflexivity | cbn; lia]|]. split; [constructor|]. constructor. }
    rewrite bind_run, lift_run.
    destruct (extract_progress c status) as [[percent stage]|e]; cbv beta iota.
    2:{ exists [EvStatusQuery job_id]. cbn [fst snd].
        split; [reflexivity|]. split; [apply sleeps_follow_query|].
        split; [split; [reflexivity | cbn; lia]|]. split; [constructor|]. constructor. }
    do 2 run_prim. cbv zeta. do 2 run_prim. rewrite bind_run, lift_run.
    destruct (attr_get status "status") as [st|e]; cbv beta iota.
    2:{ exists [EvStatusQuery job_id; EvUiProgress percent stage]. cbn [fst snd].
        rewrite <- !app_assoc. split; [reflexivity|].
        split; [apply sleeps_follow_update|].
        split; [split; [reflexivity | cbn; lia]|]. split; [constructor|]. constructor. }
    rewrite bind_run, lift_run.
    match goal with
    | |- context [if truthy st then ?a else ?b] => destruct (if truthy st then a else b) as [x|e]
    end; cbv beta iota.
    2:{ exists [EvStatusQuery job_id; EvUiProgress percent stage]. cbn [fst snd].
        rewrite <- !app_assoc. split; [reflexivity|].
        split; [apply sleeps_follow_update|].
        split; [split; [reflexivity | cbn; lia]|]. split; [constructor|]. constructor. }
    destruct (bool_decide (x ∈ ["COMPLETED"; "FAILED"; "TIMEOUT"])).
    + rewrite bind_run, lift_run.
      destruct (on_terminal c x status); cbv beta iota; rewrite ?ret_run;
        exists [EvStatusQuery job_id; EvUiProgress percent stage]; cbn [fst snd];
        rewrite <- !app_assoc; (split; [reflexivity|]);
        (split; [apply sleeps_follow_update|]);
        (split; [split; [reflexivity | cbn; lia]|]); (split; [constructor|]); constructor.
    + rewrite bind_run. unfold sleep.
      destruct (Qle_bool 0 (poll_interval (c_time c (tr ++ [EvStatusQuery job_id]) - start)))
        eqn:Hnn.
      2:{ rewrite raise_run. cbv beta iota.
          exists [EvStatusQuery job_id; EvUiProgress percent stage]. cbn [fst snd].
          rewrite <- !app_assoc. split; [reflexivity|].
          split; [apply sleeps_follow_update|].
          split; [split; [reflexivity | cbn; lia]|]. split; [constructor|]. constructor. }
      apply Qle_bool_iff in Hnn.
      rewrite emit_run. cbv beta iota. rewrite <- !app_assoc. cbn [app].
      match goal with
      | |- context [poll_loop c job_id start fuel (mk_st ?tr1 cs t)] =>
          destruct (IH tr1) as (suf & Hsuf & Hfol & Hcnt & Hmax & Hmin);
          destruct (poll_loop c job_id start fuel (mk_st tr1 cs t)) as [r s1]
      end.
      cbn [fst snd] in *. subst s1.
      exists ([EvStatusQuery job_id; EvUiProgress percent stage;
               EvSleep (poll_interval (c_time c (tr ++ [EvStatusQuery job_id]) - start))]
              ++ suf).
      split; [by rewrite <- !app_assoc|].
      split; [by apply sleeps_follow_step|].
      rewrite queries_of_app, sleeps_of_app.
      change (queries_of [EvStatusQuery job_id; EvUiProgress percent stage;
                EvSleep (poll_interval (c_time c (tr ++ [EvStatusQuery job_id]) - start))])
        with [job_id].
      change (sleeps_of [EvStatusQuery job_id; EvUiProgress percent stage;
                EvSleep (poll_interval (c_time c (tr ++ [EvStatusQuery job_id]) - start))])
        with [poll_interval (c_time c (tr ++ [EvStatusQuery job_id]) - start)].
      cbn [app length].
      split.
      { destruct r as [[res|]|e]; destruct Hcnt as [Hq Hl]; rewrite Hq; cbn [replicate];
          (split; [reflexivity | lia]). }
      split.
      { constructor; [|exact Hmax]. split; [exact Hnn | apply poll_interval_le_max]. }
      intros Hclock. constructor.
      * apply poll_interval_ge_min.
        assert (start <= c_time c (tr ++ [EvStatusQuery job_id]))%Q
          by (apply Hclock; by apply prefix_app_r).
        lra.
      * apply Hmin. intros tr' Hpre. apply Hclock. etrans; [|exact Hpre].
        by apply prefix_app_r.
Qed.


End UiFacts.

(** * Evaluations of the model *)

Module Examples.
Import Validator Storage Pipeline Logging Handler Obs Scenario Ui.

(** Against C1 as stated: a successful single job records eight
    checkpoints, not the ten stage names of the state machine, in
    either letter case. *)
Lemma successful_job_has_eight_checkpoints :
  match (run lax (world env_ok ∅ local_refs no_http gen_ok) (job payload) init_st).1 with
  | Ok (Single r) =>
      status r = "success" ∧
      cp_event <$> checkpoints r =
        ["validated"; "models_loading"; "models_ready"; "preprocessing_done";
         "generation_start"; "postprocess_mux"; "uploading_artifacts"; "completed"] ∧
      length (checkpoints r) ≠ length Spec.stage_names ∧
      cp_event <$> checkpoints r ≠ lower <$> Spec.stage_names
  | _ => False
  end.
Proof. vm_compute. repeat split; congruence. Qed.

(** C4, at the failing input. The generator runs out of device memory
    on the first call and on the retry: it was called twice, the second
    time with the 480p preset, 8 sampling steps and shift 7, and the
    error envelope carries E_GENERATION_RUNTIME at stage "runtime", not
    E_OOM. *)
Lemma oom_twice_reports_generation_runtime :
  match run lax (world env_ok ∅ local_refs no_http (gen_raises cuda_oom))
          (job payload) init_st with
  | (Ok (Single (Error out)), s') =>
      code (eo_error out) = "E_GENERATION_RUNTIME" ∧
      code (eo_error out) ≠ "E_OOM" ∧
      at_stage (eo_error out) = Some "runtime" ∧
      cause_class (eo_error out) = Some "OutOfMemoryError" ∧
      (λ a, (ga_size_buckget a, ga_sampling_steps a, ga_shift a)) <$>
        generate_args (st_trace s') =
        [(JStr "infinitetalk-720", JInt 40, 11); (JStr "infinitetalk-480", JInt 8, 7)]
  | _ => False
  end.
Proof. vm_compute. repeat split; congruence. Qed.

(** Against C5 as stated: with the model paths unset the generation
    stage raises a [RuntimeError] that the mapping policy sends to
    E_GENERATION_RUNTIME, and the catch site assigns E_PIPELINE_LOAD. *)
Lemma missing_model_paths_is_pipeline_load :
  match (run lax (world env_no_models ∅ local_refs no_http gen_ok) (job payload) init_st).1 with
  | Ok (Single (Error out)) =>
      code (eo_error out) = "E_PIPELINE_LOAD" ∧
      cause_class (eo_error out) = Some "RuntimeError" ∧
      cause_message (eo_error out) =
        Some "Model paths CKPT_DIR and INFINITETALK_DIR must be set in environment." ∧
      Spec.classify
        (mk_exn RuntimeError
           "Model paths CKPT_DIR and INFINITETALK_DIR must be set in environment.") =
        "E_GENERATION_RUNTIME"
  | _ => False
  end.
Proof. vm_compute. repeat split; congruence. Qed.

(** Against C9 as stated: the normalized output of an accepted
    envelope has no [input] key, so a second application rejects it. *)
Lemma normalized_output_is_not_an_envelope :
  normalize_and_validate lax (job payload) ∅ = Ok payload ∧
  normalize_and_validate lax payload ∅ =
    Raise (mk_exn ValidationError "input: Field required").
Proof. split; vm_compute; reflexivity. Qed.

(** The repository's own audio-embedding failure is a [RuntimeError]:
    with WAV2VEC_DIR unset the envelope carries E_GENERATION_RUNTIME,
    where the mapping policy reads E_AUDIO_EMBEDDING. *)
Lemma missing_wav2vec_dir_is_generation_runtime :
  match (run lax (world env_no_wav2vec ∅ local_refs no_http gen_ok) (job payload) init_st).1 with
  | Ok (Single (Error out)) =>
      code (eo_error out) = "E_GENERATION_RUNTIME" ∧
      at_stage (eo_error out) = Some "runtime" ∧
      cause_message (eo_error out) =
        Some "WAV2VEC_DIR env var is required for audio embedding." ∧
      Spec.classify
        (mk_exn RuntimeError "WAV2VEC_DIR env var is required for audio embedding.") =
        "E_AUDIO_EMBEDDING"
  | _ => False
  end.
Proof. vm_compute. repeat split; congruence. Qed.

(** C3, at the failing input. A batch the schema accepts, whose second
    item has an id of 256 letters, on a file system that refuses names
    longer than 255 bytes: the first item runs to completion, then the
    work directory of the second cannot be created and [run] raises the
    [OSError], returning no result for either item. *)
Lemma long_item_id_aborts_batch :
  is_ok (normalize_and_validate lax (job batch_long_id) ∅) = true ∧
  match run lax (with_makedirs (world env_ok ∅ local_refs no_http gen_ok) name_max_makedirs)
          (job batch_long_id) init_st with
  | (Raise e, s') =>
      class_name (exn_class e) = "OSError" ∧
      progress_of (st_trace s') = success_stages ∧
      last (st_trace s') =
        Some (EvMakedirs (path_join (path_join "/tmp" "job-job-1") long_id))
  | _ => False
  end.
Proof. split; [vm_compute; reflexivity|]. vm_compute. repeat split; congruence. Qed.



(** The clock of [busy_client] never runs backwards. *)
Lemma busy_client_clock_monotone : clock_monotone busy_client.
Proof.
  intros tr tr' [k ->]. unfold busy_client, c_time.
  rewrite length_app, <- Zle_Qle. lia.
Qed.

End Examples.

(** * The theorems at concrete inputs *)

Module Witnesses.
Import Validator Storage Pipeline Logging Handler Obs Scenario Ui.
Import ValidatorFacts RetryFacts HandlerFacts RunFacts BatchFacts StorageFacts UiFacts.

Lemma frame_num_accepted_iff_witness :
  frame_num_81 !! "frame_num" = Some (JInt 81) ∧
  as_int lax (JInt 81) = Some 81 ∧
  (is_ok (field_frame_num lax frame_num_81) = true ↔ 81 > 0 ∧ (81 - 1) mod 4 = 0).
Proof.
  split; [reflexivity|]. split; [reflexivity|].
  apply (frame_num_accepted_iff lax frame_num_81 (JInt 81) 81); reflexivity.
Defined.

Lemma normalized_single_fields_witness :
  job payload !! "input" = Some (JObj payload) ∧
  payload !! "batch" = None ∧
  normalize_and_validate lax (job payload) defaults_doc =
    Ok (normalized_of (normalize_and_validate lax (job payload) defaults_doc)) ∧
  (payload !! "frame_num" = None →
   generation_of defaults_doc !! "frame_num" = None →
   normalized_of (normalize_and_validate lax (job payload) defaults_doc) !! "frame_num" = None).
Proof.
  assert (H1 : job payload !! "input" = Some (JObj payload)) by reflexivity.
  assert (H2 : payload !! "batch" = None) by reflexivity.
  assert (H3 : normalize_and_validate lax (job payload) defaults_doc =
               Ok (normalized_of (normalize_and_validate lax (job payload) defaults_doc)))
    by (vm_compute; reflexivity).
  split; [exact H1|]. split; [exact H2|]. split; [exact H3|].
  apply (normalized_single_fields lax (job payload) defaults_doc payload _ H1 H2 H3).
Defined.

Lemma normalize_fixes_rewrapped_output_witness :
  generation_of defaults_doc !! "batch" = None ∧
  normalize_and_validate lax (job payload) defaults_doc =
    Ok (normalized_of (normalize_and_validate lax (job payload) defaults_doc)) ∧
  normalize_and_validate lax
    (<["input" := JObj (normalized_of (normalize_and_validate lax (job payload) defaults_doc))]>
       (job payload)) defaults_doc =
    Ok (normalized_of (normalize_and_validate lax (job payload) defaults_doc)).
Proof.
  assert (H1 : generation_of defaults_doc !! "batch" = None) by reflexivity.
  assert (H2 : normalize_and_validate lax (job payload) defaults_doc =
               Ok (normalized_of (normalize_and_validate lax (job payload) defaults_doc)))
    by (vm_compute; reflexivity).
  split; [exact H1|]. split; [exact H2|].
  exact (normalize_fixes_rewrapped_output lax (job payload) defaults_doc _ H1 H2).
Defined.

Lemma successful_job_checkpoints_witness :
  run lax (world env_ok ∅ local_refs no_http gen_ok) (job payload) init_st =
    (Ok (Single (single_result
                   (run lax (world env_ok ∅ local_refs no_http gen_ok) (job payload) init_st))),
     (run lax (world env_ok ∅ local_refs no_http gen_ok) (job payload) init_st).2) ∧
  status (single_result
            (run lax (world env_ok ∅ local_refs no_http gen_ok) (job payload) init_st)) =
    "success" ∧
  cp_event <$> checkpoints
    (single_result
       (run lax (world env_ok ∅ local_refs no_http gen_ok) (job payload) init_st)) =
    ["validated"; "models_loading"; "models_ready"; "preprocessing_done";
     "generation_start"; "postprocess_mux"; "uploading_artifacts"; "completed"].
Proof.
  assert (H1 : run lax (world env_ok ∅ local_refs no_http gen_ok) (job payload) init_st =
    (Ok (Single (single_result
                   (run lax (world env_ok ∅ local_refs no_http gen_ok) (job payload) init_st))),
     (run lax (world env_ok ∅ local_refs no_http gen_ok) (job payload) init_st).2))
    by (vm_compute; reflexivity).
  assert (H2 : status (single_result
            (run lax (world env_ok ∅ local_refs no_http gen_ok) (job payload) init_st)) =
    "success") by (vm_compute; reflexivity).
  split; [exact H1|]. split; [exact H2|].
  exact (proj1 (successful_job_checkpoints lax _ _ _ _ _ H1 H2)).
Defined.

Lemma error_code_at_catch_site_witness :
  _run_single_item lax (world env_no_models ∅ local_refs no_http gen_ok)
    (JStr "job-1") payload "/tmp/job-job-1" None None init_st =
    (Ok (Error (item_error
                  (_run_single_item lax (world env_no_models ∅ local_refs no_http gen_ok)
                     (JStr "job-1") payload "/tmp/job-job-1" None None init_st))),
     (_run_single_item lax (world env_no_models ∅ local_refs no_http gen_ok)
        (JStr "job-1") payload "/tmp/job-job-1" None None init_st).2) ∧
  retryable (eo_error (item_error
                  (_run_single_item lax (world env_no_models ∅ local_refs no_http gen_ok)
                     (JStr "job-1") payload "/tmp/job-job-1" None None init_st))) =
    default false (ERROR_RETRYABLE !! code (eo_error (item_error
                  (_run_single_item lax (world env_no_models ∅ local_refs no_http gen_ok)
                     (JStr "job-1") payload "/tmp/job-job-1" None None init_st)))).
Proof.
  assert (H1 : _run_single_item lax (world env_no_models ∅ local_refs no_http gen_ok)
    (JStr "job-1") payload "/tmp/job-job-1" None None init_st =
    (Ok (Error (item_error
                  (_run_single_item lax (world env_no_models ∅ local_refs no_http gen_ok)
                     (JStr "job-1") payload "/tmp/job-job-1" None None init_st))),
     (_run_single_item lax (world env_no_models ∅ local_refs no_http gen_ok)
        (JStr "job-1") payload "/tmp/job-job-1" None None init_st).2))
    by (vm_compute; reflexivity).
  split; [exact H1|].
  destruct (error_code_at_catch_site lax _ _ _ _ _ _ _ _ _ H1) as (e & s0 & _ & _ & _ & Hr & _).
  exact Hr.
Defined.




Lemma generation_retries_once_on_oom_witness :
  ∃ suf,
    st_trace (run_inference (world env_ok ∅ local_refs no_http (gen_oom_first 1))
                payload "/tmp/job-job-1" init_st).2 = st_trace init_st ++ suf ∧
    (length (generate_args suf) <= 2)%nat.
Proof.
  destruct (generation_retries_once_on_oom
              (world env_ok ∅ local_refs no_http (gen_oom_first 1))
              payload "/tmp/job-job-1" init_st _ _ (surjective_pairing _))
    as (suf & Htr & [[Hg _]|[(pre & a1 & post & _ & Hg & _)|
                             (pre & a1 & mid & a2 & post & e & n & _ & Hg & _)]]);
    exists suf; (split; [exact Htr|]); rewrite Hg; simpl; lia.
Defined.

Lemma oom_code_only_for_MemoryError_witness :
  code (eo_error (item_error
    (_run_single_item lax
       (world env_ok ∅ local_refs no_http (gen_raises (mk_exn MemoryError "out of memory")))
       (JStr "job-1") payload "/tmp/job-job-1" None None init_st))) = "E_OOM" ∧
  message (eo_error (item_error
    (_run_single_item lax
       (world env_ok ∅ local_refs no_http (gen_raises (mk_exn MemoryError "out of memory")))
       (JStr "job-1") payload "/tmp/job-job-1" None None init_st))) = "Out of memory.".
Proof.
  assert (H1 : _run_single_item lax
       (world env_ok ∅ local_refs no_http (gen_raises (mk_exn MemoryError "out of memory")))
       (JStr "job-1") payload "/tmp/job-job-1" None None init_st =
    (Ok (Error (item_error
       (_run_single_item lax
          (world env_ok ∅ local_refs no_http (gen_raises (mk_exn MemoryError "out of memory")))
          (JStr "job-1") payload "/tmp/job-job-1" None None init_st))),
     (_run_single_item lax
        (world env_ok ∅ local_refs no_http (gen_raises (mk_exn MemoryError "out of memory")))
        (JStr "job-1") payload "/tmp/job-job-1" None None init_st).2))
    by (vm_compute; reflexivity).
  assert (H2 : code (eo_error (item_error
    (_run_single_item lax
       (world env_ok ∅ local_refs no_http (gen_raises (mk_exn MemoryError "out of memory")))
       (JStr "job-1") payload "/tmp/job-job-1" None None init_st))) = "E_OOM")
    by (vm_compute; reflexivity).
  split; [exact H2|].
  destruct (oom_code_only_for_MemoryError lax _ _ _ _ _ _ _ _ _ H1 H2)
    as (e & s0 & _ & _ & _ & _ & Hm & _).
  exact Hm.
Defined.

Lemma batch_job_never_seeds_witness :
  job batch_payload !! "input" = Some (JObj batch_payload) ∧
  batch_payload !! "batch" =
    Some (JList [JObj payload; JObj (<["id" := JStr "second"]> payload)]) ∧
  ∃ suf,
    st_trace (run lax (world env_ok ∅ local_refs no_http gen_ok) (job batch_payload)
                init_st).2 = st_trace init_st ++ suf ∧
    seeds_of suf = [].
Proof.
  assert (H1 : job batch_payload !! "input" = Some (JObj batch_payload)) by reflexivity.
  assert (H2 : batch_payload !! "batch" =
                 Some (JList [JObj payload; JObj (<["id" := JStr "second"]> payload)]))
    by reflexivity.
  split; [exact H1|]. split; [exact H2|].
  exact (batch_job_never_seeds lax (world env_ok ∅ local_refs no_http gen_ok)
           (job batch_payload) batch_payload _ init_st H1 H2).
Defined.

End Witnesses.
